(** * bw25fastapi: the static LCA evaluation of [main.py] and the results
    formatting of [utils.py], as a shallow embedding.

    Python dictionaries are insertion-ordered association lists, exceptions
    are a sum type, and every call into the Brightway libraries ([bw2data],
    [bw2calc]) is recorded in a log, so that the order and the number of the
    calls made by [staticLCA] and [run_lca] can be stated.  Amounts and scores
    live in an arbitrary field [F] (exact arithmetic); matrices are MathComp
    matrices over [F]. *)

From HB Require Import structures.
From Stdlib Require Import String Ascii.
From mathcomp Require Import boot order algebra.

Set Implicit Arguments.
Unset Strict Implicit.
Unset Printing Implicit Defensive.

Import GRing.Theory Num.Theory.
Local Open Scope ring_scope.

(** ** Strings as keys *)

HB.instance Definition _ := hasDecEq.Build string String.eqb_spec.

(** ** Python dictionaries

    A [dict] keeps its items in insertion order; assigning to a key that is
    already present replaces the value and keeps the position. *)

Section Dict.

Variables (K : eqType) (V : Type).

Definition dict := seq (K * V).

Fixpoint dict_get (d : dict) (k : K) : option V :=
  if d is (k', v) :: d' then
    if k' == k then Some v else dict_get d' k
  else None.

(** [d[k] = v] *)
Fixpoint dict_set (d : dict) (k : K) (v : V) : dict :=
  if d is (k', v') :: d' then
    if k' == k then (k', v) :: d' else (k', v') :: dict_set d' k v
  else [:: (k, v)].

(** [{k: v for (k, v) in items}] *)
Definition dict_of_items (items : seq (K * V)) : dict :=
  foldl (fun d kv => dict_set d kv.1 kv.2) [::] items.

Definition dict_keys (d : dict) : seq K := [seq kv.1 | kv <- d].

End Dict.

(** ** Python values that can appear in the list of methods

    A method key is meant to be a tuple of strings; the list handed to
    [staticLCA] is an ordinary Python list and can hold anything, so its
    elements are modelled as tuples or lists of atoms, or bare atoms. *)

Inductive atom : Type :=
| AStr (s : string)
| ANum (z : int).

Inductive pyobj : Type :=
| OAtom (a : atom)
| OTuple (xs : seq atom)
| OList (xs : seq atom).

Definition atom_code (a : atom) : string + int :=
  match a with AStr s => inl s | ANum z => inr z end.

Definition atom_decode (c : string + int) : atom :=
  match c with inl s => AStr s | inr z => ANum z end.

Lemma atom_codeK : cancel atom_code atom_decode.
Proof. by case. Qed.

HB.instance Definition _ := Equality.copy atom (can_type atom_codeK).

Definition pyobj_code (o : pyobj) : atom + (seq atom + seq atom) :=
  match o with
  | OAtom a => inl a
  | OTuple xs => inr (inl xs)
  | OList xs => inr (inr xs)
  end.

Definition pyobj_decode (c : atom + (seq atom + seq atom)) : pyobj :=
  match c with
  | inl a => OAtom a
  | inr (inl xs) => OTuple xs
  | inr (inr xs) => OList xs
  end.

Lemma pyobj_codeK : cancel pyobj_code pyobj_decode.
Proof. by case. Qed.

HB.instance Definition _ := Equality.copy pyobj (can_type pyobj_codeK).

(** [tuple(strs)] for a list of strings *)
Definition tuple_of (strs : seq string) : pyobj := OTuple [seq AStr s | s <- strs].

(** the strings of a tuple of strings, if it is one *)
Fixpoint strings_of (xs : seq atom) : option (seq string) :=
  match xs with
  | [::] => Some [::]
  | AStr s :: xs' => omap (cons s) (strings_of xs')
  | ANum _ :: _ => None
  end.

(** lists are not hashable, so they cannot be dictionary keys *)
Definition hashable (o : pyobj) : bool :=
  if o is OList _ then false else true.

(** ** Exceptions *)

(** a demand key as [staticLCA] receives it: [(database, code)] *)
Definition Key : Type := (string * string)%type.

Inductive exn : Type :=
| ValueError (msg : string)
| AssertionError (msg : string)
| IndexError
| KeyError
| AttributeError
| TypeError
| ValidationError                              (* pydantic *)
| HTTPException (status : nat) (detail : string)
| UnknownObject (k : Key)                      (* bw2data: no such activity *)
| UnknownMethod (m : pyobj)                    (* no such LCIA method *)
| OutsideTechnosphere (i : nat)                (* demanded id not in the matrix *)
| SingularMatrix.

(** ** Results of fallible code, and the logging monad *)

Definition res (T : Type) : Type := (exn + T)%type.

Definition rbind T U (c : res T) (k : T -> res U) : res U :=
  match c with inl e => inl e | inr x => k x end.

(** a loop of pure code that stops at the first exception *)
Fixpoint rfold S X (step : S -> X -> res S) (s : S) (xs : seq X) : res S :=
  if xs is x :: xs' then rbind (step s x) (fun s' => rfold step s' xs') else inr s.

Section Engine.

(** amounts, matrix entries and scores: exact arithmetic in a field *)
Variable F : fieldType.

(** One event per call that leaves [main.py]: into [bw2data], into
    [bw2calc], or into the sparse-matrix product that characterizes an
    inventory. *)
Inductive event : Type :=
| EvLCA (keys : seq Key) (method : pyobj)     (* bc.LCA(demand=..., method=...) *)
| EvLci (demand : option (dict nat F))        (* lca.lci() and lca.lci(int_demand) *)
| EvSwitchMethod (method : pyobj)             (* lca.switch_method(method) *)
| EvGetActivity (k : Key)                     (* bd.get_activity(key) *)
| EvDbGet (database : string) (code : string) (* db.get(key) *)
| EvCharacterize (method : pyobj).            (* (C * lca.inventory).sum() *)

(** a computation yields the calls it made, in order, and a value or the
    exception that stopped it *)
Definition M (T : Type) : Type := (seq event * res T)%type.

Definition ret T (x : T) : M T := ([::], inr x).

Definition raise T (e : exn) : M T := ([::], inl e).
Arguments raise {T} e.

Definition emit (ev : event) : M unit := ([:: ev], inr tt).

Definition lift T (r : res T) : M T := ([::], r).

Definition bind T U (c : M T) (k : T -> M U) : M U :=
  match c with
  | (log, inl e) => (log, inl e)
  | (log, inr x) => let: (log', r) := k x in (log ++ log', r)
  end.

Notation "x <- c ;; k" := (bind c (fun x => k))
  (at level 61, c at next level, right associativity).
Notation "c ;;; k" := (bind c (fun _ => k))
  (at level 61, right associativity).

(** a [for] loop that threads the loop state and stops at the first
    exception *)
Fixpoint foldM S X (step : S -> X -> M S) (s : S) (xs : seq X) : M S :=
  if xs is x :: xs' then s' <- step s x ;; foldM step s' xs' else ret s.

(** ** The data store ([bw2data]) *)

Record activity : Type := Activity {
  act_id : nat;        (* act.id *)
  act_str : string     (* str(act) *)
}.

(** Modelled from the spec: the data of one project.  The process graph
    store and the method registry are libraries outside the repository; the
    technosphere matrix A is square over the processes, the biosphere matrix
    B has one row per elementary flow, and every registered method key (a
    tuple of strings) owns a characterization matrix over the elementary
    flows. *)
Record project : Type := Project {
  pd_databases : seq string;
  pd_activities : dict Key activity;
  pd_n : nat;
  pd_p : nat;
  pd_technosphere : 'M[F]_pd_n;
  pd_biosphere : 'M[F]_(pd_p, pd_n);
  pd_methods : dict (seq string) 'M[F]_pd_p
}.

(** Modelled from the spec: [bd.get_activity(key)] resolves a process id
    and fails on an id the store does not have. *)
Definition get_activity (pd : project) (k : Key) : M activity :=
  emit (EvGetActivity k) ;;;
  if dict_get (pd_activities pd) k is Some act then ret act
  else raise (UnknownObject k).

(** Modelled from the spec: the characterization matrix registered for a
    method key; anything that is not a registered tuple of strings is an
    unknown method. *)
Definition load_lcia_data (pd : project) (method : pyobj) : res 'M[F]_(pd_p pd) :=
  if method is OTuple xs then
    if strings_of xs is Some ss then
      if dict_get (pd_methods pd) ss is Some C then inr C
      else inl (UnknownMethod method)
    else inl (UnknownMethod method)
  else inl (UnknownMethod method).

(** ** The LCA object ([bw2calc]) *)

Record lca_obj (pd : project) : Type := LcaObj {
  lca_demand : dict nat F;
  lca_characterization_matrix : option 'M[F]_(pd_p pd);
  lca_inventory : option 'cV[F]_(pd_p pd)
}.

(** Modelled from the spec: the integer ids of the demanded activities. *)
Fixpoint demand_ids (pd : project) (d : dict Key F) : res (dict nat F) :=
  if d is (k, v) :: d' then
    if dict_get (pd_activities pd) k is Some act then
      rbind (demand_ids pd d') (fun r => inr (dict_set r (act_id act) v))
    else inl (UnknownObject k)
  else inr [::].

(** Modelled from the spec: [bc.LCA(demand=all_demands, method=method)]
    resolves the demanded activities and the method; nothing is solved
    yet. *)
Definition LCA (pd : project) (all_demands : dict Key F) (method : pyobj)
  : M (lca_obj pd) :=
  emit (EvLCA (dict_keys all_demands) method) ;;;
  ids <- lift (demand_ids pd all_demands) ;;
  lift (load_lcia_data pd method) ;;;
  ret (LcaObj ids None None).

(** Modelled from the spec: the right-hand side f has the requested amount
    at each demanded id and zero elsewhere. *)
Definition demand_array (pd : project) (d : dict nat F) : 'cV[F]_(pd_n pd) :=
  \col_i odflt 0 (dict_get d (nat_of_ord i)).

(** Modelled from the spec: every demanded id must be an index of the
    technosphere matrix. *)
Fixpoint check_demand (pd : project) (d : dict nat F) : res unit :=
  if d is (i, _) :: d' then
    if (i < pd_n pd)%N then check_demand pd d' else inl (OutsideTechnosphere i)
  else inr tt.

(** Modelled from the spec: the linear solver of [bw2calc] is outside the
    repository; the scaling vector s is the solution of A s = f, and the
    solve fails when A is singular. *)
Definition solve_linear_system (pd : project) (f : 'cV[F]_(pd_n pd))
  : res 'cV[F]_(pd_n pd) :=
  if pd_technosphere pd \in unitmx then inr (invmx (pd_technosphere pd) *m f)
  else inl SingularMatrix.

(** Modelled from the spec: [lca.lci()] solves for the demand the object
    was built with, [lca.lci(demand)] for the given one; the inventory is
    g = B s. *)
Definition lci (pd : project) (lca : lca_obj pd) (demand : option (dict nat F))
  : M (lca_obj pd) :=
  emit (EvLci demand) ;;;
  d <- (if demand is Some d then (lift (check_demand pd d) ;;; ret d)
        else ret (lca_demand lca)) ;;
  s <- lift (solve_linear_system (demand_array pd d)) ;;
  ret (LcaObj d (lca_characterization_matrix lca) (Some (pd_biosphere pd *m s))).

(** Modelled from the spec: [lca.switch_method(method)] makes [method] the
    active one, which loads its characterization matrix into the LCA
    object. *)
Definition switch_method (pd : project) (lca : lca_obj pd) (method : pyobj)
  : M (lca_obj pd) :=
  emit (EvSwitchMethod method) ;;;
  C <- lift (load_lcia_data pd method) ;;
  ret (LcaObj (lca_demand lca) (Some C) (lca_inventory lca)).

(** [M.sum()]: the sum of all entries *)
Definition mx_sum (m n : nat) (A : 'M[F]_(m, n)) : F := \sum_i \sum_j A i j.

(** reading an attribute of the LCA object: it has to be set *)
Definition attr T (o : option T) : M T :=
  if o is Some x then ret x else raise AttributeError.

(** [d[k]] *)
Definition getitem (K : eqType) V (d : dict K V) (k : K) : M V :=
  if dict_get d k is Some x then ret x else raise KeyError.

(** [d[k] = v] where the key has to be hashable *)
Definition setitem V (d : dict pyobj V) (k : pyobj) (v : V) : M (dict pyobj V) :=
  if hashable k then ret (dict_set d k v) else raise TypeError.

End Engine.

Arguments raise {F T} e.
Arguments ret {F T} x.
Arguments emit {F} ev.
Arguments lift {F T} r.
Arguments attr {F T} o.
Arguments getitem {F K V} d k.
Arguments setitem {F V} d k v.
Arguments EvLCA {F} keys method.
Arguments EvLci {F} demand.
Arguments EvSwitchMethod {F} method.
Arguments EvGetActivity {F} k.
Arguments EvDbGet {F} database code.
Arguments EvCharacterize {F} method.

Notation "x <- c ;; k" := (bind c (fun x => k))
  (at level 61, c at next level, right associativity).
Notation "c ;;; k" := (bind c (fun _ => k))
  (at level 61, right associativity).

(** ** [utils.py] *)

Section Utils.

Variable V : Type.

Definition separator : string := " | ".

(** a byte [10xxxxxx], which continues a character of a UTF-8 text *)
Definition continuation_byte (c : ascii) : bool :=
  let: Ascii _ _ _ _ _ _ b6 b7 := c in b7 && ~~ b6.

(** the string goes on with such a byte *)
Definition continued (s : string) : bool :=
  if s is String c _ then continuation_byte c else false.

(** the one-character strings of a string, which is what iterating over
    it yields: a character of the UTF-8 text is a byte with the
    continuation bytes that follow it *)
Fixpoint chars (s : string) : seq string :=
  if s is String c s' then
    if continued s' then
      if chars s' is t :: ts then String c t :: ts
      else [:: String c EmptyString]
    else String c EmptyString :: chars s'
  else [::].

(** [" | ".join(key)]: every item of [key] has to be a string *)
Definition join (key : pyobj) : res string :=
  match key with
  | OAtom (AStr s) => inr (String.concat separator (chars s))
  | OAtom (ANum _) => inl TypeError
  | OTuple xs | OList xs =>
      if strings_of xs is Some ss then inr (String.concat separator ss)
      else inl TypeError
  end.

(** [{" | ".join(key): value for key, value in inner_dict.items()}] *)
Definition convert_inner_dict (inner_dict : dict pyobj V) : res (dict string V) :=
  rfold (fun acc kv => rbind (join kv.1) (fun s => inr (dict_set acc s kv.2)))
        [::] inner_dict.

Definition convert_results_format (results : dict string (dict pyobj V))
  : res (dict string (dict string V)) :=
  rfold (fun converted_results kv =>
           rbind (convert_inner_dict kv.2)
                 (fun converted_inner_dict =>
                    inr (dict_set converted_results kv.1 converted_inner_dict)))
        [::] results.

End Utils.

(** ** [main.py]: [staticLCA] *)

Section StaticLCA.

Variable F : fieldType.

Record LCAInput : Type := MkLCAInput {
  demands : seq (dict Key F);
  impact_categories : seq pyobj
}.

Definition no_methods_msg : string :=
  "No methods were specified. Please specify at least one method to perform LCA calculations".

Definition assert_msg : string := "Methods must be a list of tuples of strings".

(** [assert isinstance(methods, list) and isinstance(methods[0], tuple)
    and isinstance(methods[0][0], str)]; [methods] is a list here. *)
Definition assert_methods (methods : seq pyobj) : M F unit :=
  match methods with
  | [::] => raise IndexError
  | OTuple [::] :: _ => raise IndexError
  | OTuple (AStr _ :: _) :: _ => ret tt
  | _ => raise (AssertionError assert_msg)
  end.

(** [{k: 1 for demand in demands for k in demand}] *)
Definition all_demands_of (ds : seq (dict Key F)) : dict Key F :=
  dict_of_items [seq (k, 1) | k <- flatten [seq dict_keys d | d <- ds]].

(** [{act.id: value for _, value in demand.items()}] *)
Definition int_demand_of (act : activity) (demand : dict Key F) : dict nat F :=
  dict_of_items [seq (act_id act, kv.2) | kv <- demand].

Variable pd : project F.

Definition C_dict : Type := dict pyobj 'M[F]_(pd_p pd).

Definition results_dict : Type := dict string (dict pyobj (option F)).

(** the body of [for method in methods] that fills [C_matrices] *)
Definition cache_step (st : lca_obj pd * C_dict) (method : pyobj)
  : M F (lca_obj pd * C_dict) :=
  lca <- switch_method st.1 method ;;
  C <- attr (lca_characterization_matrix lca) ;;
  C_matrices <- setitem st.2 method C ;;
  ret (lca, C_matrices).

(** the body of the inner [for method in methods]:
    [results[str(act)][method] = (C_matrices[method] * lca.inventory).sum()] *)
Definition score_step (C_matrices : C_dict) (act : activity)
    (st : lca_obj pd * results_dict) (method : pyobj)
  : M F (lca_obj pd * results_dict) :=
  lca <- switch_method st.1 method ;;
  C <- getitem C_matrices method ;;
  g <- attr (lca_inventory lca) ;;
  emit (EvCharacterize method) ;;;
  let score := mx_sum (C *m g) in
  inner <- getitem st.2 (act_str act) ;;
  ret (lca, dict_set st.2 (act_str act) (dict_set inner method (Some score))).

(** the body of [for demand in demands] *)
Definition demand_step (methods : seq pyobj) (C_matrices : C_dict)
    (st : lca_obj pd * results_dict) (demand : dict Key F)
  : M F (lca_obj pd * results_dict) :=
  k <- (if dict_keys demand is k :: _ then ret k else raise IndexError) ;;
  act <- get_activity pd k ;;
  let results :=
    dict_set st.2 (act_str act) (dict_of_items [seq (m, None) | m <- methods]) in
  let int_demand := int_demand_of act demand in
  lca <- lci st.1 (Some int_demand) ;;
  foldM (score_step C_matrices act) (lca, results) methods.

(** [print(results, ...)] before the return writes to the console only and
    is left out. *)
Definition staticLCA (inputs : LCAInput)
  : M F (dict string (dict string (option F))) :=
  let methods := impact_categories inputs in
  let demands := demands inputs in
  if size methods == 0%N then raise (ValueError no_methods_msg) else
  assert_methods methods ;;;
  let all_demands := all_demands_of demands in
  lca <- LCA pd all_demands (head (OTuple [::]) methods) ;;
  lca <- lci lca None ;;
  st <- foldM cache_step (lca, [::]) methods ;;
  st' <- foldM (demand_step methods st.2) (st.1, [::]) demands ;;
  lift (convert_results_format st'.2).

End StaticLCA.

(** ** [models.py] and [main.py]: [run_lca] *)

Section RunLCA.

Variable F : fieldType.

Record LCARequest : Type := MkLCARequest {
  req_demands : seq (dict string F);
  req_impact_categories : option (seq (seq string));
  req_lcia_method : option string
}.

(** [LCAInput(demands=..., impact_categories=...)]: the model validates
    that every impact category is a 3-tuple of strings (a list of three
    strings is accepted and becomes a tuple). *)
Definition validate_method (o : pyobj) : res pyobj :=
  match o with
  | OTuple xs | OList xs =>
      if strings_of xs is Some [:: _; _; _] then inr (OTuple xs)
      else inl ValidationError
  | OAtom _ => inl ValidationError
  end.

Definition new_LCAInput (ds : seq (dict Key F)) (methods : seq pyobj)
  : res (LCAInput F) :=
  rbind (rfold (fun acc o => rbind (validate_method o) (fun t => inr (rcons acc t)))
               [::] methods)
        (fun ms => inr (MkLCAInput ds ms)).

(** the state of [bw2data]: the projects and the current one *)
Record bw2data : Type := Bw {
  bw_projects : dict string (project F);
  bw_current : string
}.

Definition set_current (bw : bw2data) (project_name : string) : bw2data :=
  Bw (bw_projects bw) project_name.

Definition activity_not_found (key : string) : string :=
  ("Activity " ++ key ++ " not found.")%string.

(** the two nested loops over [body.demands] that call [db.get(key)] *)
Definition check_activities (pd : project F) (database_name : string)
    (ds : seq (dict string F)) : M F unit :=
  foldM (fun _ key =>
           emit (EvDbGet database_name key) ;;;
           if dict_get (pd_activities pd) (database_name, key) is Some _
           then ret tt
           else raise (HTTPException 404 (activity_not_found key)))
        tt (flatten [seq dict_keys d | d <- ds]).

(** [{(database_name, key): amount for key, amount in demand.items()}] *)
Definition qualify (database_name : string) (demand : dict string F) : dict Key F :=
  dict_of_items [seq ((database_name, kv.1), kv.2) | kv <- demand].

(** truth values of the optional fields of the request *)
Definition nonempty_str (o : option string) : option string :=
  if o is Some s then if s == EmptyString then None else Some s else None.

Definition nonempty_list T (o : option (seq T)) : option (seq T) :=
  if o is Some (x :: l) then Some (x :: l) else None.

(** the choice of the methods to evaluate *)
Definition select_methods (pd : project F) (body : LCARequest) : res (seq pyobj) :=
  let registered := dict_keys (pd_methods pd) in
  if nonempty_str (req_lcia_method body) is Some lcia_method then
    (* [method for method in bd.methods if body.lcia_method == method[0]] *)
    if [::] \in registered then inl IndexError
    else inr [seq tuple_of method
             | method <- registered & head EmptyString method == lcia_method]
  else if nonempty_list (req_impact_categories body) is Some lists then
    rfold (fun acc method_list =>
             if method_list \in registered then inr (rcons acc (tuple_of method_list))
             else inl (HTTPException 404 "Impact category not found."))
          [::] lists
  else
    inl (HTTPException 400 "No impact categories provided or lcia method provided.").

Definition run_lca (bw : bw2data) (project_name database_name : string)
    (body : LCARequest)
  : bw2data * M F (dict string (dict string (option F))) :=
  if dict_get (bw_projects bw) project_name is Some pd then
    (set_current bw project_name,
     if database_name \in pd_databases pd then
       check_activities pd database_name (req_demands body) ;;;
       let ds := [seq qualify database_name d | d <- req_demands body] in
       impact_categories <- lift (select_methods pd body) ;;
       inputs <- lift (new_LCAInput ds impact_categories) ;;
       staticLCA pd inputs
     else raise (HTTPException 404 "Database not found."))
  else (bw, raise (HTTPException 404 "Project not found.")).

End RunLCA.

(** ** The value of [staticLCA], with the log and the LCA object erased

    These definitions restate the loops of [staticLCA] as pure code over
    [res]; the lemma [staticLCA_valueE] proves that they compute the second
    component of [staticLCA]. *)

Section Value.

Variable F : fieldType.
Variable pd : project F.

(** what the loop over [cache_step] leaves in [C_matrices] *)
Definition cache_of (C0 : C_dict pd) (methods : seq pyobj) : res (C_dict pd) :=
  rfold (fun Cs m =>
           rbind (load_lcia_data pd m) (fun C =>
           if hashable m then inr (dict_set Cs m C) else inl TypeError))
        C0 methods.

(** the inventory that [lca.lci(int_demand)] leaves in the LCA object *)
Definition inventory_of (d : dict nat F) : res 'cV[F]_(pd_p pd) :=
  rbind (check_demand pd d) (fun _ =>
  rbind (solve_linear_system (demand_array pd d)) (fun s =>
  inr (pd_biosphere pd *m s))).

(** what the loop over [score_step] leaves in [results[str(act)]] *)
Definition inner_of (C_matrices : C_dict pd) (g : 'cV[F]_(pd_p pd))
    (inner0 : dict pyobj (option F)) (methods : seq pyobj)
  : res (dict pyobj (option F)) :=
  rfold (fun inner m =>
           rbind (load_lcia_data pd m) (fun _ =>
           if dict_get C_matrices m is Some C
           then inr (dict_set inner m (Some (mx_sum (C *m g))))
           else inl KeyError))
        inner0 methods.

(** the activity a demand is filed under: the one of its first key *)
Definition first_activity (demand : dict Key F) : res activity :=
  if dict_keys demand is k :: _ then
    if dict_get (pd_activities pd) k is Some act then inr act
    else inl (UnknownObject k)
  else inl IndexError.

(** the entry one pass of [demand_step] writes into [results] *)
Definition demand_entry (methods : seq pyobj) (C_matrices : C_dict pd)
    (demand : dict Key F) : res (string * dict pyobj (option F)) :=
  rbind (first_activity demand) (fun act =>
  rbind (inventory_of (int_demand_of act demand)) (fun g =>
  rbind (inner_of C_matrices g (dict_of_items [seq (m, None) | m <- methods]) methods)
        (fun inner => inr (act_str act, inner)))).

Definition results_of (methods : seq pyobj) (C_matrices : C_dict pd)
    (results : results_dict F) (ds : seq (dict Key F)) : res (results_dict F) :=
  rfold (fun rs d =>
           rbind (demand_entry methods C_matrices d)
                 (fun e => inr (dict_set rs e.1 e.2)))
        results ds.

Definition staticLCA_value (inputs : LCAInput F)
  : res (dict string (dict string (option F))) :=
  let methods := impact_categories inputs in
  let ds := demands inputs in
  if size methods == 0%N then inl (ValueError no_methods_msg) else
  rbind (assert_methods F methods).2 (fun _ =>
  rbind (demand_ids pd (all_demands_of ds)) (fun ids =>
  rbind (load_lcia_data pd (head (OTuple [::]) methods)) (fun _ =>
  rbind (solve_linear_system (demand_array pd ids)) (fun _ =>
  rbind (cache_of [::] methods) (fun Cs =>
  rbind (results_of methods Cs [::] ds) (fun rs =>
  convert_results_format rs)))))).

End Value.

(** ** Auxiliary notions used in the statements *)

Section Aux.

Variable F : fieldType.
Variable pd : project F.

(** a computation that returned *)
Definition ok T (r : res T) : bool := if r is inr _ then true else false.

(** the string a demand is filed under in the result, when its first key
    names a known activity *)
Definition label_of (demand : dict Key F) : option string :=
  if first_activity pd demand is inr act then Some (act_str act) else None.

Definition labels (ds : seq (dict Key F)) : seq string := pmap label_of ds.

(** the first keys of the demands *)
Definition first_keys (ds : seq (dict Key F)) : seq (option Key) :=
  [seq ohead (dict_keys d) | d <- ds].

(** every key of every demand names a known activity *)
Definition known_keys (ds : seq (dict Key F)) : bool :=
  all (fun k => isSome (dict_get (pd_activities pd) k))
      (flatten [seq dict_keys d | d <- ds]).

End Aux.

(** mapping a fallible function over a list *)
Fixpoint rmapM T U (f : T -> res U) (xs : seq T) : res (seq U) :=
  if xs is x :: xs' then
    rbind (f x) (fun y => rbind (rmapM f xs') (fun ys => inr (y :: ys)))
  else inr [::].

(** a 3-part method key, as a typed value and as the Python tuple *)
Definition key3 : Type := (string * string * string)%type.

Definition tuple3 (t : key3) : pyobj := tuple_of [:: t.1.1; t.1.2; t.2].

Definition join3 (t : key3) : string :=
  (t.1.1 ++ " | " ++ t.1.2 ++ " | " ++ t.2)%string.

(** a result whose method keys are 3-part keys, as [convert_results_format]
    receives it *)
Definition results3 V (results : dict string (seq (key3 * V)))
  : dict string (dict pyobj V) :=
  [seq (kv.1, [seq (tuple3 tv.1, tv.2) | tv <- kv.2]) | kv <- results].

(** ** The log of a run of [staticLCA] that returns *)

Section Log.

Variable F : fieldType.
Variable pd : project F.

(** the calls of one pass of [demand_step] *)
Definition demand_log (methods : seq pyobj) (demand : dict Key F) : seq (event F) :=
  if dict_keys demand is k :: _ then
    if dict_get (pd_activities pd) k is Some act then
      EvGetActivity k
        :: EvLci (Some (int_demand_of act demand))
        :: flatten [seq [:: EvSwitchMethod m; EvCharacterize m] | m <- methods]
    else [::]
  else [::].

Definition staticLCA_log (inputs : LCAInput F) : seq (event F) :=
  let methods := impact_categories inputs in
  let ds := demands inputs in
  EvLCA (dict_keys (all_demands_of ds)) (head (OTuple [::]) methods)
    :: EvLci None
    :: [seq EvSwitchMethod m | m <- methods]
    ++ flatten [seq demand_log methods d | d <- ds].

End Log.

(** ** Counting the calls in a log *)

Section Counting.

Variable F : fieldType.

Definition is_lca (ev : event F) : bool := if ev is EvLCA _ _ then true else false.
Definition is_lci (ev : event F) : bool := if ev is EvLci _ then true else false.
Definition is_switch_method (ev : event F) : bool :=
  if ev is EvSwitchMethod _ then true else false.
Definition is_characterize (ev : event F) : bool :=
  if ev is EvCharacterize _ then true else false.

Definition is_db_get (ev : event F) : bool :=
  if ev is EvDbGet _ _ then true else false.

End Counting.

(** ** Scaling a demand and a result *)

Section Scaling.

Variable F : fieldType.

Definition map_values (K : eqType) V W (f : V -> W) (d : dict K V) : dict K W :=
  [seq (kv.1, f kv.2) | kv <- d].

(** all amounts of a demand multiplied by [k] *)
Definition scale_demand (k : F) (d : dict Key F) : dict Key F :=
  map_values (fun v => k * v) d.

(** all scores of a result multiplied by [k] *)
Definition scale_results (K1 K2 : eqType) (k : F)
    (r : dict K1 (dict K2 (option F))) : dict K1 (dict K2 (option F)) :=
  map_values (map_values (omap (fun v => k * v))) r.

Definition rmap T U (f : T -> U) (r : res T) : res U :=
  match r with inl e => inl e | inr x => inr (f x) end.

End Scaling.

(** ** A small project: the two-process scenario

    P1 needs two units of P2 per unit of output, P2 emits five units of the
    elementary flow E per unit of activity, and two methods weigh E by 3
    and by 1. *)

Definition mx_of_rows (m n : nat) (rows : seq (seq rat)) : 'M[rat]_(m, n) :=
  \matrix_(i, j) nth 0 (nth [::] rows i) j.

Definition P1 : Key := ("db", "P1")%string.
Definition P2 : Key := ("db", "P2")%string.
Definition act_P1 : activity := Activity 0 "'P1' (kilogram, GLO, None)".
Definition act_P2 : activity := Activity 1 "'P2' (kilogram, GLO, None)".

Definition gwp : seq string := [:: "IPCC"; "climate change"; "GWP 100a"]%string.
Definition unit_E : seq string := [:: "IPCC"; "emission"; "E"]%string.
Definition m_gwp : pyobj := tuple_of gwp.
Definition m_unit : pyobj := tuple_of unit_E.

Definition toy_A : 'M[rat]_2 := mx_of_rows 2 2 [:: [:: 1; 0]; [:: -2%:Q; 1]].
Definition toy_A_inv : 'M[rat]_2 := mx_of_rows 2 2 [:: [:: 1; 0]; [:: 2%:Q; 1]].
Definition toy_B : 'M[rat]_(1, 2) := mx_of_rows 1 2 [:: [:: 0; 5%:Q]].

Definition toy : project rat :=
  @Project rat [:: "db"%string] [:: (P1, act_P1); (P2, act_P2)] 2 1
           toy_A toy_B [:: (gwp, 3%:Q%:M); (unit_E, 1%:M)].

Definition toy_bw : bw2data rat := Bw [:: ("demo"%string, toy)] "default"%string.

(** ** Inputs over the scenario *)

Definition d_P1 : dict Key rat := [:: (P1, 1)].
Definition d_P1_twice : dict Key rat := [:: (P1, 2%:Q)].
Definition d_P2 : dict Key rat := [:: (P2, 1)].

(** one demand that asks for one unit of P1 and three units of P2 *)
Definition d_combined : dict Key rat := [:: (P1, 1); (P2, 3%:Q)].

Definition label_P1 : string := act_str act_P1.
Definition label_P2 : string := act_str act_P2.
Definition joined_gwp : string := "IPCC | climate change | GWP 100a".
Definition joined_unit : string := "IPCC | emission | E".

(** an element of the list of methods that is not a tuple *)
Definition not_a_key : pyobj := OAtom (ANum 42).

(** a request that names a family of methods nobody registered *)
Definition req_unknown_family : LCARequest rat :=
  MkLCARequest [:: [:: ("P1"%string, 1)]] None (Some "ReCiPe"%string).

(** a request that gives a family and a list of categories, the latter
    unknown to the registry *)
Definition req_both : LCARequest rat :=
  MkLCARequest [:: [:: ("P1"%string, 1)]]
               (Some [:: [:: "no"; "such"; "method"]%string])
               (Some "IPCC"%string).

(** two 3-part keys with the same joined string *)
Definition colliding : dict string (seq (key3 * nat)) :=
  [:: ("act"%string,
       [:: (("a | b", "c", "d")%string, 1%N); (("a", "b | c", "d")%string, 2%N)])].

Definition well_keyed : dict string (seq (key3 * nat)) :=
  [:: ("act"%string,
       [:: (("a", "b", "c")%string, 1%N); (("a", "b", "d")%string, 2%N)])].

(** ** The two properties that fail as the specification states them *)

(** evaluating two demands together gives each of them the entry it gets
    when evaluated alone *)
Definition reuse_equivalence (F : fieldType) (pd : project F)
    (ms : seq pyobj) (d1 d2 : dict Key F) : Prop :=
  forall r1 r2 r12,
    (staticLCA pd (MkLCAInput [:: d1] ms)).2 = inr r1 ->
    (staticLCA pd (MkLCAInput [:: d2] ms)).2 = inr r2 ->
    (staticLCA pd (MkLCAInput [:: d1; d2] ms)).2 = inr r12 ->
    (forall l inner, dict_get r1 l = Some inner -> dict_get r12 l = Some inner)
    /\ (forall l inner, dict_get r2 l = Some inner -> dict_get r12 l = Some inner).

(** the formatting renames every method key to its joined string and keeps
    the outer keys and the scores *)
Definition formats_every_key (V : Type) (results : dict string (dict key3 V)) : Prop :=
  exists2 converted,
    convert_results_format (results3 results) = inr converted
    & dict_keys converted = dict_keys results
      /\ forall o inner t v,
           dict_get results o = Some inner -> dict_get inner t = Some v ->
           exists2 inner',
             dict_get converted o = Some inner'
             & dict_get inner' (join3 t) = Some v.

(** ** [main.py]: the endpoints that read the method registry and the
    databases *)

Section Endpoints.

Variable F : fieldType.

(** [if bd.projects.current != project_name:
       bd.projects.set_current(project_name)] *)
Definition ensure_current (bw : bw2data F) (project_name : string) : bw2data F :=
  if bw_current bw != project_name then set_current bw project_name else bw.

Definition list_project_databases (bw : bw2data F) (project_name : string)
  : bw2data F * res (seq string) :=
  if dict_get (bw_projects bw) project_name is Some pd then
    (ensure_current bw project_name, inr (pd_databases pd))
  else (bw, inl (HTTPException 404 "Project not found.")).

(** [method[0]] *)
Definition method_family (method : seq string) : res string :=
  if method is family :: _ then inr family else inl IndexError.

(** [methods = [method[0] for method in bd.methods]] and then
    [list(set(methods))].  Python leaves the order of the list open; the
    model lists each family once, and the statements about it only speak of
    membership and of the absence of repetitions. *)
Definition get_lcia_methods (bw : bw2data F) (project_name : string)
  : bw2data F * res (seq string) :=
  if dict_get (bw_projects bw) project_name is Some pd then
    (ensure_current bw project_name,
     rbind (rmapM method_family (dict_keys (pd_methods pd)))
           (fun methods => inr (undup methods)))
  else (bw, inl (HTTPException 404 "Project not found.")).

(** one round of
    [[method[1] for method in bd.methods if lcia_method == method[0]]] *)
Definition category_step (lcia_method : string) (acc : seq string)
    (method : seq string) : res (seq string) :=
  rbind (method_family method) (fun family =>
  if lcia_method == family then
    if method is [:: _, category & _] then inr (rcons acc category)
    else inl IndexError
  else inr acc).

Definition get_impact_categories (bw : bw2data F)
    (project_name lcia_method : string) : bw2data F * res (seq string) :=
  if dict_get (bw_projects bw) project_name is Some pd then
    (ensure_current bw project_name,
     rbind (rfold (category_step lcia_method) [::] (dict_keys (pd_methods pd)))
           (fun impact_categories =>
              if impact_categories is [::]
              then inl (HTTPException 404 "LCIA method not found.")
              else inr impact_categories))
  else (bw, inl (HTTPException 404 "Project not found.")).

End Endpoints.

(** ** Further notions used in the statements *)

Section Aux2.

Variable F : fieldType.


(** a list or tuple of exactly three strings *)
Definition three_strings (o : pyobj) : bool :=
  match o with
  | OTuple xs | OList xs => if strings_of xs is Some [:: _; _; _] then true else false
  | OAtom _ => false
  end.

(** the tuple a validated element becomes *)
Definition as_tuple (o : pyobj) : pyobj :=
  match o with
  | OTuple xs | OList xs => OTuple xs
  | OAtom a => OAtom a
  end.

(** the methods of a family *)
Definition family_of (pd : project F) (name : string) : seq (seq string) :=
  filter (fun m => head EmptyString m == name) (dict_keys (pd_methods pd)).

(** every key of every demand of a request is an activity of the database *)
Definition request_known (pd : project F) (database_name : string)
    (ds : seq (dict string F)) : bool :=
  all (fun k => isSome (dict_get (pd_activities pd) (database_name, k)))
      (flatten [seq dict_keys d | d <- ds]).

(** the lookups a request makes before anything else *)
Definition lookups (database_name : string) (ks : seq string) : seq (event F) :=
  [seq EvDbGet database_name k | k <- ks].

(** the methods a log has scores computed for, in the order of the calls *)
Definition characterized (log : seq (event F)) : seq pyobj :=
  flatten [seq (if ev is EvCharacterize m then [:: m] else [::]) | ev <- log].


End Aux2.

(** the string holds the character of the separator *)
Fixpoint has_bar (s : string) : bool :=
  if s is String c s' then Ascii.eqb c "|" || has_bar s' else false.

(** a list without the later occurrences of its elements *)
Definition first_occurrences (T : eqType) (s : seq T) : seq T :=
  rev (undup (rev s)).

(** the method key is joined to the string *)
Definition joins_to (s : string) (m : pyobj) : bool :=
  if join m is inr s' then s' == s else false.

(** a registry with a key of two parts only *)
Definition short_key : seq string := [:: "CML"; "acidification"]%string.

Definition toy_short : project rat :=
  @Project rat [:: "db"%string] [:: (P1, act_P1); (P2, act_P2)] 2 1
           toy_A toy_B [:: (gwp, 3%:Q%:M); (short_key, 1%:M)].

Definition toy_short_bw : bw2data rat :=
  Bw [:: ("demo"%string, toy_short)] "default"%string.

(** * Lemmas *)

(** ** The two components of a computation *)

Section MonadLemmas.

Variable F : fieldType.

Lemma bind2 T U (c : M F T) (k : T -> M F U) :
  (bind c k).2 = rbind c.2 (fun x => (k x).2).
Proof. by case: c => log [e|x] //=; case: (k x). Qed.

Lemma bind1 T U (c : M F T) (k : T -> M F U) :
  (bind c k).1 = c.1 ++ (if c.2 is inr x then (k x).1 else [::]).
Proof. by case: c => log [e|x] /=; rewrite ?cats0 //; case: (k x). Qed.

Lemma rfold_ext S X (f g : S -> X -> res S) (s : S) (xs : seq X) :
  (forall s x, f s x = g s x) -> rfold f s xs = rfold g s xs.
Proof.
move=> fg; elim: xs s => [|x xs IH] s //=.
by rewrite fg; case: (g s x) => //= s'; rewrite IH.
Qed.

End MonadLemmas.

(** ** Reading back what was assigned *)

Section DictLemmas.

Variables (K : eqType) (V : Type).

Lemma dict_get_set (d : dict K V) (k : K) (v : V) :
  dict_get (dict_set d k v) k = Some v.
Proof.
elim: d => [|[k' v'] d IH] /=; first by rewrite eqxx.
by case: ifP => [e|ne] /=; rewrite ?e ?ne.
Qed.

Lemma dict_set_set (d : dict K V) (k : K) (v w : V) :
  dict_set (dict_set d k v) k w = dict_set d k w.
Proof.
elim: d => [|[k' v'] d IH] /=; first by rewrite eqxx.
by case: ifP => [e|ne] /=; rewrite ?e ?ne // IH.
Qed.

Lemma dict_set_get (d : dict K V) (k : K) (v : V) :
  dict_get d k = Some v -> dict_set d k v = d.
Proof.
elim: d => [|[k' v'] d IH] //=.
by case: ifP => [_ [->]|_ /IH ->].
Qed.

End DictLemmas.

(** ** [staticLCA_value] is the value of [staticLCA] *)

Section ValueLemmas.

Variable F : fieldType.
Variable pd : project F.

Lemma foldM_snd S1 S2 X (step : S1 * S2 -> X -> M F (S1 * S2))
    (g : S2 -> X -> res S2) (s : S1 * S2) (xs : seq X) :
  (forall s x, rmap snd (step s x).2 = g s.2 x) ->
  rmap snd (foldM step s xs).2 = rfold g s.2 xs.
Proof.
move=> Hstep; elim: xs s => [|x xs IH] s //=.
by rewrite bind2 -Hstep; case: (step s x).2 => [e|s'] /=.
Qed.

Lemma switch_method2 (lca : lca_obj pd) (m : pyobj) :
  (switch_method lca m).2 =
  rbind (load_lcia_data pd m)
        (fun C => inr (LcaObj (lca_demand lca) (Some C) (lca_inventory lca))).
Proof. by rewrite /switch_method /= /lift; case: load_lcia_data. Qed.

Lemma cache_step2 (st : lca_obj pd * C_dict pd) (m : pyobj) :
  rmap snd (cache_step st m).2 =
  rbind (load_lcia_data pd m) (fun C =>
  if hashable m then inr (dict_set st.2 m C) else inl TypeError).
Proof.
rewrite /cache_step bind2 switch_method2.
case: load_lcia_data => //= C.
by rewrite ?bind2 /= /setitem; case: hashable.
Qed.

Lemma cache_loop2 (st : lca_obj pd * C_dict pd) (ms : seq pyobj) :
  rmap snd (foldM (@cache_step F pd) st ms).2 = cache_of st.2 ms.
Proof. by apply: foldM_snd => s x; rewrite cache_step2. Qed.

Lemma inner_of_cons (Cs : C_dict pd) (g : 'cV[F]_(pd_p pd))
    (inner : dict pyobj (option F)) (m : pyobj) (ms : seq pyobj) :
  inner_of Cs g inner (m :: ms) =
  rbind (load_lcia_data pd m) (fun _ =>
  if dict_get Cs m is Some C
  then inner_of Cs g (dict_set inner m (Some (mx_sum (C *m g)))) ms
  else inl KeyError).
Proof.
rewrite /inner_of /=; case: load_lcia_data => [e|C0] //=.
by case: dict_get.
Qed.

Lemma score_loop2 (Cs : C_dict pd) (act : activity) (g : 'cV[F]_(pd_p pd))
    (ms : seq pyobj) (lca : lca_obj pd) (rs : results_dict F)
    (inner : dict pyobj (option F)) :
  lca_inventory lca = Some g ->
  dict_get rs (act_str act) = Some inner ->
  rmap snd (foldM (score_step Cs act) (lca, rs) ms).2 =
  rmap (dict_set rs (act_str act)) (inner_of Cs g inner ms).
Proof.
elim: ms lca rs inner => [|m ms IH] lca rs inner Hg Hin.
  by rewrite /= dict_set_get.
rewrite inner_of_cons /= bind2 /score_step bind2 switch_method2.
case: load_lcia_data => [e|C] //=.
rewrite ?bind2 /= /getitem.
case: (dict_get Cs m) => //= Cm.
rewrite ?bind2 /= Hg /= ?bind2 /= Hin /=.
rewrite (IH _ _ (dict_set inner m (Some (mx_sum (Cm *m g))))) //=;
  first by rewrite dict_get_set.
by case: (inner_of Cs g _ ms) => //= x; rewrite dict_set_set.
Qed.

End ValueLemmas.

Section ValueLemmas2.

Variable F : fieldType.
Variable pd : project F.

Lemma lci2 (lca : lca_obj pd) (d : dict nat F) :
  (lci lca (Some d)).2 =
  rbind (inventory_of pd d)
        (fun g => inr (LcaObj d (lca_characterization_matrix lca) (Some g))).
Proof.
rewrite /lci /inventory_of ?bind2 /=.
case: check_demand => //= _.
by rewrite ?bind2 /=; case: solve_linear_system.
Qed.

Lemma get_activity2 (k : Key) :
  (get_activity pd k).2 =
  if dict_get (pd_activities pd) k is Some act then inr act
  else inl (UnknownObject k).
Proof. by rewrite /get_activity bind2 /=; case: dict_get. Qed.

Lemma demand_step2 (ms : seq pyobj) (Cs : C_dict pd)
    (st : lca_obj pd * results_dict F) (d : dict Key F) :
  rmap snd (demand_step ms Cs st d).2 =
  rbind (demand_entry ms Cs d) (fun e => inr (dict_set st.2 e.1 e.2)).
Proof.
rewrite /demand_step /demand_entry /first_activity bind2.
case: (dict_keys d) => [|k ks] //=.
rewrite bind2 get_activity2.
case: dict_get => [act|] //=.
rewrite bind2 lci2.
case: inventory_of => [e|g] //=.
rewrite (@score_loop2 _ _ _ _ g _ _ _ (dict_of_items [seq (m, None) | m <- ms])) //;
  first by rewrite dict_get_set.
by case: (inner_of Cs g _ ms) => //= inner; rewrite dict_set_set.
Qed.

Lemma demand_loop2 (ms : seq pyobj) (Cs : C_dict pd)
    (st : lca_obj pd * results_dict F) (ds : seq (dict Key F)) :
  rmap snd (foldM (demand_step ms Cs) st ds).2 = results_of ms Cs st.2 ds.
Proof. by apply: foldM_snd => s x; rewrite demand_step2. Qed.

Lemma rbind_rmap T U W (f : T -> U) (c : res T) (k : U -> res W) :
  rbind (rmap f c) k = rbind c (fun x => k (f x)).
Proof. by case: c. Qed.

Lemma staticLCA_valueE (inputs : LCAInput F) :
  (staticLCA pd inputs).2 = staticLCA_value pd inputs.
Proof.
rewrite /staticLCA /staticLCA_value.
case: (size _ == 0%N) => //.
rewrite bind2; case: (assert_methods F _).2 => [e|_] //=.
rewrite bind2 /LCA ?bind2 /=.
case: demand_ids => [e|ids] //=.
rewrite ?bind2 /=.
case: load_lcia_data => [e|C0] //=.
rewrite ?bind2 /=.
case: solve_linear_system => [e|s] //=.
rewrite bind2.
set lca0 := LcaObj _ _ _.
have := cache_loop2 (lca0, [::]) (impact_categories inputs).
case: (foldM _ _ _).2 => [e|[lca1 Cs]] /= <- //=.
rewrite bind2.
have := demand_loop2 (impact_categories inputs) Cs (lca1, [::]) (demands inputs).
by case: (foldM _ _ _).2 => [e|[lca2 rs]] /= <-.
Qed.

End ValueLemmas2.

(** ** Linearity in the amounts *)

Section MapValues.

Variables (K : eqType) (V W : Type) (f : V -> W).

Lemma dict_keys_map_values (d : dict K V) :
  dict_keys (map_values f d) = dict_keys d.
Proof. by rewrite /dict_keys /map_values -map_comp. Qed.

Lemma dict_get_map_values (d : dict K V) (k : K) :
  dict_get (map_values f d) k = omap f (dict_get d k).
Proof. by elim: d => [|[k' v] d IH] //=; case: ifP. Qed.

Lemma dict_set_map_values (d : dict K V) (k : K) (v : V) :
  dict_set (map_values f d) k (f v) = map_values f (dict_set d k v).
Proof.
elim: d => [|[k' v'] d IH] //=.
by case: ifP => _ //=; rewrite IH.
Qed.

Lemma dict_of_items_map_values (items : seq (K * V)) :
  dict_of_items [seq (kv.1, f kv.2) | kv <- items] =
  map_values f (dict_of_items items).
Proof.
rewrite /dict_of_items -[[::] in LHS]/(map_values f [::]).
elim: items [::] => [|[k v] items IH] acc //=.
by rewrite dict_set_map_values IH.
Qed.

End MapValues.

Section ConvertNatural.

Variables (V W : Type) (f : V -> W).

Lemma convert_inner_dict_map (inner : dict pyobj V) :
  convert_inner_dict (map_values f inner) =
  rmap (map_values f) (convert_inner_dict inner).
Proof.
rewrite /convert_inner_dict -[[::] in LHS]/(map_values f [::]).
elim: inner [::] => [|[k v] inner IH] acc //=.
case: (join k) => [e|s] //=.
by rewrite dict_set_map_values IH.
Qed.

Lemma convert_results_format_map (rs : dict string (dict pyobj V)) :
  convert_results_format (map_values (map_values f) rs) =
  rmap (map_values (map_values f)) (convert_results_format rs).
Proof.
rewrite /convert_results_format
  -[[::] in LHS]/(map_values (map_values f) [::]).
elim: rs [::] => [|[k v] rs IH] acc //=.
rewrite convert_inner_dict_map.
case: (convert_inner_dict v) => [e|c] //=.
by rewrite dict_set_map_values IH.
Qed.

End ConvertNatural.

Section Linearity.

Variable F : fieldType.
Variable pd : project F.
Variable k : F.

Let scale_inner : dict pyobj (option F) -> dict pyobj (option F) :=
  map_values (omap (fun v => k * v)).

Lemma all_demands_of_scale (ds : seq (dict Key F)) :
  all_demands_of [seq scale_demand k d | d <- ds] = all_demands_of ds.
Proof.
rewrite /all_demands_of -map_comp; congr (dict_of_items (map _ (flatten _))).
by apply: eq_map => d /=; rewrite dict_keys_map_values.
Qed.

Lemma first_activity_scale (d : dict Key F) :
  first_activity pd (scale_demand k d) = first_activity pd d.
Proof. by rewrite /first_activity dict_keys_map_values. Qed.

Lemma int_demand_of_scale (act : activity) (d : dict Key F) :
  int_demand_of act (scale_demand k d) =
  map_values (fun v => k * v) (int_demand_of act d).
Proof.
by rewrite /int_demand_of -dict_of_items_map_values -!map_comp.
Qed.

Lemma check_demand_scale (d : dict nat F) :
  check_demand pd (map_values (fun v => k * v) d) = check_demand pd d.
Proof. by elim: d => [|[i v] d IH] //=; case: ifP. Qed.

Lemma demand_array_scale (d : dict nat F) :
  demand_array pd (map_values (fun v => k * v) d) = k *: demand_array pd d.
Proof.
apply/matrixP => i j; rewrite !mxE dict_get_map_values.
by case: dict_get => //=; rewrite mulr0.
Qed.

Lemma solve_linear_system_scale (f : 'cV[F]_(pd_n pd)) :
  solve_linear_system (k *: f) = rmap (fun s => k *: s) (solve_linear_system f).
Proof.
by rewrite /solve_linear_system; case: ifP => //= _; rewrite scalemxAr.
Qed.

Lemma inventory_of_scale (d : dict nat F) :
  inventory_of pd (map_values (fun v => k * v) d) =
  rmap (fun g => k *: g) (inventory_of pd d).
Proof.
rewrite /inventory_of check_demand_scale demand_array_scale.
case: check_demand => //= _; rewrite solve_linear_system_scale.
by case: solve_linear_system => //= s; rewrite scalemxAr.
Qed.

Lemma mx_sum_scale (m n : nat) (A : 'M[F]_(m, n)) :
  mx_sum (k *: A) = k * mx_sum A.
Proof.
rewrite /mx_sum big_distrr /=; apply: eq_bigr => i _.
by rewrite big_distrr /=; apply: eq_bigr => j _; rewrite mxE.
Qed.

Lemma inner_of_scale (Cs : C_dict pd) (g : 'cV[F]_(pd_p pd))
    (inner : dict pyobj (option F)) (ms : seq pyobj) :
  inner_of Cs (k *: g) (scale_inner inner) ms =
  rmap scale_inner (inner_of Cs g inner ms).
Proof.
rewrite /inner_of; elim: ms inner => [|m ms IH] inner //=.
case: load_lcia_data => [e|_] //=.
case: dict_get => [C|] //=.
by rewrite -scalemxAr mx_sum_scale -IH /scale_inner -dict_set_map_values.
Qed.

Lemma demand_entry_scale (ms : seq pyobj) (Cs : C_dict pd) (d : dict Key F) :
  demand_entry ms Cs (scale_demand k d) =
  rmap (fun e => (e.1, scale_inner e.2)) (demand_entry ms Cs d).
Proof.
rewrite /demand_entry first_activity_scale.
case: first_activity => [e|act] //=.
rewrite int_demand_of_scale inventory_of_scale.
case: inventory_of => [e|g] //=.
set init := dict_of_items _.
have Hinit : init = scale_inner init.
  by rewrite /scale_inner -dict_of_items_map_values -map_comp.
rewrite [in LHS]Hinit inner_of_scale.
by case: (inner_of Cs g _ ms).
Qed.

Lemma results_of_scale (ms : seq pyobj) (Cs : C_dict pd)
    (rs : results_dict F) (ds : seq (dict Key F)) :
  results_of ms Cs (scale_results k rs) [seq scale_demand k d | d <- ds] =
  rmap (scale_results k (K2:=pyobj)) (results_of ms Cs rs ds).
Proof.
rewrite /results_of; elim: ds rs => [|d ds IH] rs //=.
rewrite demand_entry_scale.
case: (demand_entry ms Cs d) => [e|[l inner]] //=.
by rewrite -IH /scale_results dict_set_map_values.
Qed.

Lemma staticLCA_value_scale (ds : seq (dict Key F)) (ms : seq pyobj) :
  staticLCA_value pd (MkLCAInput [seq scale_demand k d | d <- ds] ms) =
  rmap (scale_results k (K2:=string)) (staticLCA_value pd (MkLCAInput ds ms)).
Proof.
rewrite /staticLCA_value /= all_demands_of_scale.
case: (size ms == 0%N) => //.
case: (assert_methods F ms).2 => [e|_] //=.
case: demand_ids => [e|ids] //=.
case: load_lcia_data => [e|_] //=.
case: solve_linear_system => [e|_] //=.
case: (cache_of _ ms) => [e|Cs] //=.
rewrite -[[::] in LHS]/(scale_results k [::]) results_of_scale.
case: (results_of ms Cs _ ds) => [e|rs] //=.
by rewrite /scale_results convert_results_format_map.
Qed.

End Linearity.

(** ** Keys of a dictionary under assignment *)

Section DictKeys.

Variables (K : eqType) (V : Type).

Lemma dict_set_notin (d : dict K V) (k : K) (v : V) :
  k \notin dict_keys d -> dict_set d k v = rcons d (k, v).
Proof.
elim: d => [|[k' v'] d IH] //=.
rewrite inE negb_or eq_sym => /andP [/negbTE -> /IH ->] //.
Qed.

Lemma mem_dict_keys_set (d : dict K V) (k k' : K) (v : V) :
  (k' \in dict_keys (dict_set d k v)) = (k' == k) || (k' \in dict_keys d).
Proof.
elim: d => [|[k0 v0] d IH] /=; first by rewrite !inE orbF.
case: ifP => [/eqP ->|_] /=; rewrite !inE ?IH; first by rewrite orbA orbb.
by rewrite orbCA.
Qed.

Lemma uniq_dict_keys_set (d : dict K V) (k : K) (v : V) :
  uniq (dict_keys (dict_set d k v)) = uniq (dict_keys d).
Proof.
elim: d => [|[k0 v0] d IH] //=.
case: ifP => [/eqP ->|ne] //=.
by rewrite IH mem_dict_keys_set ne.
Qed.

Lemma dict_get_set_neq (d : dict K V) (k k' : K) (v : V) :
  k' != k -> dict_get (dict_set d k v) k' = dict_get d k'.
Proof.
move=> ne; elim: d => [|[k0 v0] d IH] /=.
  by rewrite eq_sym (negbTE ne).
case: ifP => [/eqP e0|n0] /=; last by rewrite IH.
by rewrite e0 eq_sym (negbTE ne).
Qed.

Lemma mem_dict_of_items (items : seq (K * V)) :
  dict_keys (dict_of_items items) =i [seq kv.1 | kv <- items].
Proof.
rewrite /dict_of_items => k.
have -> : (k \in [seq kv.1 | kv <- items]) =
          (k \in dict_keys (@nil (K * V))) || (k \in [seq kv.1 | kv <- items]).
  by [].
elim: items [::] => [|[k0 v0] items IH] acc /=; first by rewrite orbF.
by rewrite IH mem_dict_keys_set inE orbCA orbA.
Qed.

End DictKeys.

Section ConvertUniq.

Variable V : Type.

Lemma rfold_rmapM S (f : S -> res (string * V)) (acc : dict string V) (xs : seq S)
    (key : S -> string) :
  (forall x y, f x = inr y -> y.1 = key x) ->
  uniq (dict_keys acc ++ [seq key x | x <- xs]) ->
  rfold (fun a x => rbind (f x) (fun y => inr (dict_set a y.1 y.2))) acc xs =
  rbind (rmapM f xs) (fun ys => inr (acc ++ ys)).
Proof.
move=> Hkey; elim: xs acc => [|x xs IH] acc /=; first by move=> _; rewrite cats0.
case Hf: (f x) => [e|[k v]] //= Hu.
have Hk := Hkey _ _ Hf; rewrite /= in Hk.
have Hnotin : k \notin dict_keys acc.
  move: Hu; rewrite cat_uniq /= negb_or Hk => /and3P [_ /andP [H _] _].
  exact: H.
rewrite dict_set_notin // IH.
  by rewrite /dict_keys map_rcons cat_rcons /= Hk.
by case: (rmapM f xs) => //= ys; rewrite cat_rcons.
Qed.

End ConvertUniq.

(** ** What a returning run went through *)

Section Inversion.

Variable F : fieldType.
Variable pd : project F.

Lemma ok_rbind_inr T U (c : res T) (f : T -> U) :
  ok (rbind c (fun x => inr (f x))) = ok c.
Proof. by case: c. Qed.

Lemma demand_ids_ok (d : dict Key F) :
  ok (demand_ids pd d) =
  all (fun k => isSome (dict_get (pd_activities pd) k)) (dict_keys d).
Proof.
elim: d => [|[k v] d IH] //=.
by case: dict_get => [act|] //=; rewrite ok_rbind_inr.
Qed.

Lemma known_keysE (ds : seq (dict Key F)) :
  ok (demand_ids pd (all_demands_of ds)) = known_keys pd ds.
Proof.
rewrite demand_ids_ok /known_keys; apply: eq_all_r => k.
by rewrite /all_demands_of mem_dict_of_items -map_comp map_id.
Qed.

Lemma known_keys_cat (ds1 ds2 : seq (dict Key F)) :
  known_keys pd (ds1 ++ ds2) = known_keys pd ds1 && known_keys pd ds2.
Proof. by rewrite /known_keys map_cat flatten_cat all_cat. Qed.

Lemma staticLCA_value_inv (ds : seq (dict Key F)) (ms : seq pyobj)
    (r : dict string (dict string (option F))) :
  staticLCA_value pd (MkLCAInput ds ms) = inr r ->
  exists Cs : C_dict pd,
    [/\ known_keys pd ds,
        rbind (results_of ms Cs [::] ds) (@convert_results_format _) = inr r
      & forall ds', known_keys pd ds' ->
          staticLCA_value pd (MkLCAInput ds' ms) =
          rbind (results_of ms Cs [::] ds') (@convert_results_format _)].
Proof.
rewrite /staticLCA_value /= -known_keysE.
case: (size ms == 0%N) => //.
case: (assert_methods F ms).2 => [e|_] //=.
case: (demand_ids pd (all_demands_of ds)) => [e|ids] //=.
case: load_lcia_data => [e|_] //=.
rewrite {1}/solve_linear_system.
case Hu: (_ \in unitmx) => //=.
case: (cache_of _ ms) => [e|Cs] //= Hr.
exists Cs; split=> // ds'; rewrite -known_keysE.
case: (demand_ids pd (all_demands_of ds')) => [e|ids'] //= _.
by rewrite /solve_linear_system Hu.
Qed.

Lemma demand_entry_label (ms : seq pyobj) (Cs : C_dict pd) (d : dict Key F)
    (e : string * dict pyobj (option F)) :
  demand_entry ms Cs d = inr e -> label_of pd d = Some e.1.
Proof.
rewrite /demand_entry /label_of.
case: first_activity => [x|act] //=.
case: inventory_of => [x|g] //=.
by case: (inner_of Cs g _ ms) => [x|inner] //= [<-].
Qed.

Lemma first_activity_label (d : dict Key F) (act : activity) :
  first_activity pd d = inr act -> label_of pd d = Some (act_str act).
Proof. by rewrite /label_of => ->. Qed.

Lemma results_of_cat (ms : seq pyobj) (Cs : C_dict pd)
    (rs : results_dict F) (ds1 ds2 : seq (dict Key F)) :
  results_of ms Cs rs (ds1 ++ ds2) =
  rbind (results_of ms Cs rs ds1) (fun rs1 => results_of ms Cs rs1 ds2).
Proof.
rewrite /results_of; elim: ds1 rs => [|d ds1 IH] rs //=.
by case: (demand_entry ms Cs d) => [e|en] //=.
Qed.

Lemma results_of_keys (ms : seq pyobj) (Cs : C_dict pd)
    (rs rs' : results_dict F) (ds : seq (dict Key F)) :
  results_of ms Cs rs ds = inr rs' ->
  [/\ dict_keys rs' =i dict_keys rs ++ labels pd ds,
      uniq (dict_keys rs') = uniq (dict_keys rs)
    & [seq label_of pd d | d <- ds] = [seq Some l | l <- labels pd ds]].
Proof.
rewrite /results_of /labels.
elim: ds rs => [|d ds IH] rs /=.
  by case=> <-; split=> // l; rewrite cats0.
case He: (demand_entry ms Cs d) => [x|e] //= /IH [Hk Hu Hl].
have Hd := demand_entry_label He.
rewrite Hd /=; split.
- move=> l; rewrite Hk !mem_cat mem_dict_keys_set inE.
  by rewrite orbA [(l == e.1) || _]orbC.
- by rewrite Hu uniq_dict_keys_set.
- by rewrite Hl.
Qed.

Lemma results_of_get_neq (ms : seq pyobj) (Cs : C_dict pd)
    (rs rs' : results_dict F) (ds : seq (dict Key F)) (l : string) :
  results_of ms Cs rs ds = inr rs' ->
  all (fun d => label_of pd d != Some l) ds ->
  dict_get rs' l = dict_get rs l.
Proof.
rewrite /results_of.
elim: ds rs => [|d ds IH] rs /=; first by case=> <-.
case He: (demand_entry ms Cs d) => [x|e] //= Hr /andP [Hne Hall].
rewrite (IH _ Hr Hall) dict_get_set_neq //.
by move: Hne; rewrite (demand_entry_label He); apply: contraNneq => ->.
Qed.

End Inversion.

(** ** Formatting a result whose outer keys are distinct *)

Section ConvertKeys.

Variable V : Type.

Lemma convert_uniqE (rs : dict string (dict pyobj V)) :
  uniq (dict_keys rs) ->
  convert_results_format rs =
  rmapM (fun kv => rmap (pair kv.1) (convert_inner_dict kv.2)) rs.
Proof.
move=> Hu; rewrite /convert_results_format.
pose f (kv : string * dict pyobj V) := rmap (pair kv.1) (convert_inner_dict kv.2).
have Hstep a kv :
    rbind (convert_inner_dict kv.2) (fun c => inr (dict_set a kv.1 c)) =
    rbind (f kv) (fun y => inr (dict_set a y.1 y.2)).
  by rewrite /f rbind_rmap.
have Hkey x y : f x = inr y -> y.1 = x.1.
  by rewrite /f; case: convert_inner_dict => //= c [<-].
rewrite (rfold_ext _ _ Hstep) (rfold_rmapM Hkey) //.
by case: rmapM.
Qed.

Lemma rmapM_values U W (g : U -> res W) (rs : dict string U) (r : dict string W) :
  rmapM (fun kv => rmap (pair kv.1) (g kv.2)) rs = inr r ->
  dict_keys r = dict_keys rs /\
  forall l x, dict_get rs l = Some x ->
    exists2 c, g x = inr c & dict_get r l = Some c.
Proof.
elim: rs r => [|[k u] rs IH] r /=; first by case=> <-.
case Hg: (g u) => [e|c] //=.
case Hm: rmapM => [e|r'] //= [<-] /=.
have [-> Hget] := IH _ Hm; split=> // l x.
by case: ifP => [_ [<-]|_ /Hget //]; exists c.
Qed.

End ConvertKeys.

(** ** Two demands together and alone *)

Section Reuse.

Variable F : fieldType.
Variable pd : project F.

Lemma staticLCA_single (ms : seq pyobj) (Cs : C_dict pd) (d : dict Key F)
    (r : dict string (dict string (option F))) :
  rbind (results_of ms Cs [::] [:: d]) (@convert_results_format _) = inr r ->
  exists e c, [/\ demand_entry ms Cs d = inr e,
                  convert_inner_dict e.2 = inr c & r = [:: (e.1, c)]].
Proof.
rewrite /results_of /=.
case: (demand_entry ms Cs d) => [x|e] //=.
rewrite /convert_results_format /=.
case Hc: (convert_inner_dict e.2) => [x|c] //= [<-].
by exists e, c.
Qed.

Lemma staticLCA_pair (ms : seq pyobj) (d1 d2 : dict Key F) (a1 a2 : activity)
    (r1 r2 : dict string (dict string (option F))) :
  first_activity pd d1 = inr a1 ->
  first_activity pd d2 = inr a2 ->
  act_str a1 != act_str a2 ->
  staticLCA_value pd (MkLCAInput [:: d1] ms) = inr r1 ->
  staticLCA_value pd (MkLCAInput [:: d2] ms) = inr r2 ->
  staticLCA_value pd (MkLCAInput [:: d1; d2] ms) = inr (r1 ++ r2).
Proof.
move=> Ha1 Ha2 Hne /staticLCA_value_inv [Cs [Hk1 E1 Hall]].
move=> H2; have [Cs2 [Hk2 _ _]] := staticLCA_value_inv H2.
move: H2; rewrite (Hall _ Hk2) => E2.
rewrite (Hall [:: d1; d2]);
  first by rewrite -cat1s known_keys_cat Hk1 Hk2.
have [e1 [c1 [He1 Hc1 ->]]] := staticLCA_single E1.
have [e2 [c2 [He2 Hc2 ->]]] := staticLCA_single E2.
have L1 := demand_entry_label He1; have L2 := demand_entry_label He2.
move: L1 L2; rewrite (first_activity_label Ha1) (first_activity_label Ha2).
move=> [L1] [L2].
rewrite /results_of /= He1 /= He2 /= -L1 -L2 (negbTE Hne) /=.
rewrite /convert_results_format /= Hc1 /= Hc2 /=.
by rewrite (negbTE Hne).
Qed.

End Reuse.

(** ** The keys of the result *)

Section Keying.

Variable F : fieldType.
Variable pd : project F.

Lemma label_of_first_key (d : dict Key F) :
  label_of pd d =
  obind (fun k => omap act_str (dict_get (pd_activities pd) k))
        (ohead (dict_keys d)).
Proof.
rewrite /label_of /first_activity.
by case: (dict_keys d) => [|k ks] //=; case: dict_get.
Qed.

Lemma uniq_labels_first_keys (ds : seq (dict Key F)) :
  [seq label_of pd d | d <- ds] = [seq Some l | l <- labels pd ds] ->
  uniq (labels pd ds) -> uniq (first_keys ds).
Proof.
move=> Hl Hu; rewrite /first_keys.
apply: (@map_uniq _ _
  (obind (fun k => omap act_str (dict_get (pd_activities pd) k)))).
have Hcomp : label_of pd =1
    obind (fun k => omap act_str (dict_get (pd_activities pd) k))
      \o (fun d => ohead (dict_keys d)).
  by move=> d /=; rewrite label_of_first_key.
by rewrite -map_comp -(eq_map Hcomp) Hl map_inj_uniq // => x y [].
Qed.

Lemma known_keys_sub (ds1 ds2 : seq (dict Key F)) (d : dict Key F) :
  known_keys pd (ds1 ++ d :: ds2) -> known_keys pd [:: d].
Proof.
by rewrite known_keys_cat -cat1s known_keys_cat => /and3P [].
Qed.

Lemma staticLCA_value_keyed (ds : seq (dict Key F)) (ms : seq pyobj)
    (r : dict string (dict string (option F))) :
  staticLCA_value pd (MkLCAInput ds ms) = inr r ->
  [/\ perm_eq (dict_keys r) (undup (labels pd ds)),
      size (labels pd ds) = size ds,
      ~~ uniq (first_keys ds) -> (size r < size ds)%N
    & forall ds1 d ds2 act,
        ds = ds1 ++ d :: ds2 ->
        first_activity pd d = inr act ->
        all (fun d' => label_of pd d' != Some (act_str act)) ds2 ->
        exists2 c,
          staticLCA_value pd (MkLCAInput [:: d] ms) = inr [:: (act_str act, c)]
          & dict_get r (act_str act) = Some c].
Proof.
move=> /staticLCA_value_inv [Cs [Hk E Hall]].
case Hrs: (results_of ms Cs [::] ds) E => [x|rs] //= Hconv.
have [Hmem Hu Hl] := results_of_keys Hrs.
rewrite /= in Hu.
move: Hconv; rewrite convert_uniqE // => /rmapM_values [Hkeys Hget].
have Hperm : perm_eq (dict_keys r) (undup (labels pd ds)).
  apply: uniq_perm; rewrite ?Hkeys ?Hu ?undup_uniq // => l.
  by rewrite Hmem mem_undup.
have Hsize : size (labels pd ds) = size ds.
  by have := congr1 size Hl; rewrite !size_map.
split=> //.
- move=> Hnu; have := perm_size Hperm.
  rewrite /dict_keys size_map => ->; rewrite -Hsize ltn_size_undup.
  by apply: contra Hnu; exact: uniq_labels_first_keys.
- move=> ds1 d ds2 act Hds Hact Hne.
  move: Hrs Hk; rewrite Hds => Hrs /known_keys_sub Hkd.
  move: Hrs; rewrite results_of_cat.
  case Hrs1: (results_of ms Cs [::] ds1) => [x|rs1] //=.
  rewrite {1}/results_of /=.
  case He: (demand_entry ms Cs d) => [x|e] //= Hrs2.
  have := demand_entry_label He; rewrite (first_activity_label Hact) => -[Hlab].
  have Hg : dict_get rs (act_str act) = Some e.2.
    by rewrite (results_of_get_neq Hrs2 Hne) Hlab dict_get_set.
  have [c Hc Hr] := Hget _ _ Hg.
  exists c => //.
  rewrite (Hall _ Hkd) /results_of /= He /= /convert_results_format /= Hc /=.
  by rewrite Hlab.
Qed.

End Keying.

(** ** The log of a returning run *)

Section LogLemmas.

Variable F : fieldType.
Variable pd : project F.

Local Arguments bind : simpl never.

Lemma foldM_log S X (step : S -> X -> M F S) (g : X -> seq (event F))
    (s s' : S) (xs : seq X) :
  (forall s x s1, (step s x).2 = inr s1 -> (step s x).1 = g x) ->
  (foldM step s xs).2 = inr s' ->
  (foldM step s xs).1 = flatten [seq g x | x <- xs].
Proof.
move=> Hstep; elim: xs s => [|x xs IH] s //=.
rewrite bind2 bind1.
case Hs: (step s x).2 => [e|s1] //= Hrest.
by rewrite (Hstep _ _ _ Hs) (IH _ Hrest).
Qed.

Lemma switch_methodE (lca : lca_obj pd) (m : pyobj) :
  switch_method lca m =
  ([:: EvSwitchMethod m],
   rbind (load_lcia_data pd m)
         (fun C => inr (LcaObj (lca_demand lca) (Some C) (lca_inventory lca)))).
Proof. by rewrite /switch_method /bind /= /lift; case: load_lcia_data. Qed.

Lemma lciE (lca : lca_obj pd) (demand : option (dict nat F)) :
  (lci lca demand).1 = [:: EvLci demand].
Proof.
rewrite /lci /bind /=; case: demand => [d|] /=.
  rewrite /lift; case: check_demand => //= _.
  by case: solve_linear_system.
by rewrite /lift; case: solve_linear_system.
Qed.

Lemma cache_step_log (st : lca_obj pd * C_dict pd) (m : pyobj)
    (st' : lca_obj pd * C_dict pd) :
  (cache_step st m).2 = inr st' -> (cache_step st m).1 = [:: EvSwitchMethod m].
Proof.
rewrite /cache_step switch_methodE /bind /=.
case: load_lcia_data => [e|C] //=.
by rewrite /setitem; case: hashable.
Qed.

Lemma score_step_log (Cs : C_dict pd) (act : activity)
    (st : lca_obj pd * results_dict F) (m : pyobj)
    (st' : lca_obj pd * results_dict F) :
  (score_step Cs act st m).2 = inr st' ->
  (score_step Cs act st m).1 = [:: EvSwitchMethod m; EvCharacterize m].
Proof.
rewrite /score_step switch_methodE /bind /=.
case: load_lcia_data => [e|C] //=.
rewrite /getitem; case: (dict_get Cs m) => [Cm|] //=.
case: (lca_inventory st.1) => [g|] //=.
by case: (dict_get st.2 (act_str act)).
Qed.

Lemma get_activityE (k : Key) :
  get_activity pd k =
  ([:: EvGetActivity k],
   if dict_get (pd_activities pd) k is Some act then inr act
   else inl (UnknownObject k)).
Proof. by rewrite /get_activity /bind /=; case: dict_get. Qed.

Lemma demand_step_log (ms : seq pyobj) (Cs : C_dict pd)
    (st : lca_obj pd * results_dict F) (d : dict Key F)
    (st' : lca_obj pd * results_dict F) :
  (demand_step ms Cs st d).2 = inr st' ->
  (demand_step ms Cs st d).1 = demand_log pd ms d.
Proof.
rewrite /demand_step /demand_log.
case: (dict_keys d) => [|k ks] //; rewrite bind2 bind1 /=.
rewrite bind2 bind1 get_activityE /=.
case: dict_get => [act|] //=.
rewrite bind2 bind1 lciE.
case: (lci _ _).2 => [e|lca] //= Hloop.
by rewrite (foldM_log (@score_step_log Cs act) Hloop).
Qed.

Lemma staticLCA_logE (inputs : LCAInput F)
    (r : dict string (dict string (option F))) :
  (staticLCA pd inputs).2 = inr r ->
  (staticLCA pd inputs).1 = staticLCA_log pd inputs.
Proof.
rewrite /staticLCA /staticLCA_log.
case: (size _ == 0%N) => //.
rewrite bind2 bind1.
have -> : (assert_methods F (impact_categories inputs)).1 = [::].
  by rewrite /assert_methods; case: impact_categories => [|[a|[|[s|z] xs]|xs] ms].
case: (assert_methods F _).2 => [e|_] //=.
rewrite bind2 bind1.
have -> : forall ad m, (LCA pd ad m).1 = [:: EvLCA (dict_keys ad) m].
  move=> ad m; rewrite /LCA /bind /= /lift.
  by case: demand_ids => [e|ids] //=; case: load_lcia_data.
case: (LCA _ _ _).2 => [e|lca0] //=.
rewrite bind2 bind1 lciE.
case: (lci lca0 None).2 => [e|lca1] //=.
rewrite bind2 bind1.
case Hc: (foldM _ _ _).2 => [e|[lca2 Cs]] //=.
rewrite (foldM_log cache_step_log Hc).
rewrite bind2 bind1.
case Hd: (foldM _ _ _).2 => [e|[lca3 rs]] //=.
rewrite (foldM_log (@demand_step_log _ _) Hd) /lift /= cats0.
move=> _; congr [:: _, _ & _ ++ _].
by elim: (impact_categories inputs) => [|m ms /= ->].
Qed.

End LogLemmas.

(** ** How often each call is made *)

Section Counts.

Variable F : fieldType.
Variable pd : project F.

Let pairs (ms : seq pyobj) : seq (event F) :=
  flatten [seq [:: EvSwitchMethod m; EvCharacterize m] | m <- ms].

Lemma count_pairs (ms : seq pyobj) :
  [/\ count (@is_lca F) (pairs ms) = 0%N,
      count (@is_lci F) (pairs ms) = 0%N,
      count (@is_switch_method F) (pairs ms) = size ms
    & count (@is_characterize F) (pairs ms) = size ms].
Proof.
by rewrite /pairs; elim: ms => [|m ms [H1 H2 H3 H4]] //=; split; rewrite ?add0n ?add1n ?H3 ?H4.
Qed.

Lemma count_demand_log (ms : seq pyobj) (d : dict Key F) :
  label_of pd d ->
  [/\ count (@is_lca F) (demand_log pd ms d) = 0%N,
      count (@is_lci F) (demand_log pd ms d) = 1%N,
      count (@is_switch_method F) (demand_log pd ms d) = size ms
    & count (@is_characterize F) (demand_log pd ms d) = size ms].
Proof.
rewrite /label_of /first_activity /demand_log.
case: (dict_keys d) => [|k ks] //; case: dict_get => [act|] // _.
by have [H1 H2 H3 H4] := count_pairs ms; split; rewrite /= ?add0n ?H1 ?H2 ?H3 ?H4.
Qed.

Lemma sumn_const (T : Type) (f : T -> nat) (c : nat) (s : seq T) (p : pred T) :
  all p s -> (forall x, p x -> f x = c) -> sumn [seq f x | x <- s] = (size s * c)%N.
Proof.
move=> Hall Hf; elim: s Hall => [|x s IH] //= /andP [Hx /IH ->].
by rewrite (Hf _ Hx) mulSn.
Qed.

Lemma staticLCA_labelled (inputs : LCAInput F)
    (r : dict string (dict string (option F))) :
  (staticLCA pd inputs).2 = inr r ->
  all (fun d => label_of pd d : bool) (demands inputs).
Proof.
case: inputs => ds ms; rewrite staticLCA_valueE.
move=> /staticLCA_value_inv [Cs [_ E _]].
case Hrs: (results_of ms Cs [::] ds) E => [x|rs] //= _.
have [_ _ Hl] := results_of_keys Hrs.
have: all isSome [seq label_of pd d | d <- ds] by rewrite Hl all_map; apply/allP.
by rewrite all_map.
Qed.

(** X1. A run of [staticLCA] that returns, on n demands and m methods,
    has built one LCA object, called [lci] n+1 times and [switch_method]
    m + n*m times, and computed n*m scores. *)
Lemma staticLCA_counts (inputs : LCAInput F)
    (r : dict string (dict string (option F))) :
  (staticLCA pd inputs).2 = inr r ->
  let log := (staticLCA pd inputs).1 in
  let n := size (demands inputs) in
  let m := size (impact_categories inputs) in
  [/\ count (@is_lca F) log = 1%N,
      count (@is_lci F) log = n.+1,
      count (@is_switch_method F) log = (m + n * m)%N
    & count (@is_characterize F) log = (n * m)%N].
Proof.
move=> Hr; rewrite /= (staticLCA_logE Hr) /staticLCA_log /=.
have Hall := staticLCA_labelled Hr.
rewrite !count_cat !count_flatten -!map_comp !count_map.
set ms := impact_categories inputs; set ds := demands inputs.
rewrite -/ds in Hall.
have C1 : sumn [seq count (@is_lca F) (demand_log pd ms d) | d <- ds]
          = (size ds * 0)%N.
  by apply: (sumn_const Hall) => d /(count_demand_log ms) [].
have C2 : sumn [seq count (@is_lci F) (demand_log pd ms d) | d <- ds]
          = (size ds * 1)%N.
  by apply: (sumn_const Hall) => d /(count_demand_log ms) [].
have C3 : sumn [seq count (@is_switch_method F) (demand_log pd ms d) | d <- ds]
          = (size ds * size ms)%N.
  by apply: (sumn_const Hall) => d /(count_demand_log ms) [].
have C4 : sumn [seq count (@is_characterize F) (demand_log pd ms d) | d <- ds]
          = (size ds * size ms)%N.
  by apply: (sumn_const Hall) => d /(count_demand_log ms) [].
rewrite C1 C2 C3 C4 muln0 muln1; split.
- by rewrite (@eq_count _ _ pred0) // count_pred0.
- by rewrite (@eq_count _ _ pred0) // count_pred0 add0n.
- by rewrite (@eq_count _ _ predT) // count_predT.
- by rewrite (@eq_count _ _ pred0) // count_pred0 add0n.
Qed.

End Counts.

(** ** Formatting 3-part keys *)

Section Formatting.

Variable V : Type.

Lemma join_tuple3 (t : key3) : join (tuple3 t) = inr (join3 t).
Proof. by case: t => [[a b] c]. Qed.

Lemma rfold_map S X Y (step : S -> Y -> res S) (h : X -> Y) (s : S) (xs : seq X) :
  rfold step s [seq h x | x <- xs] = rfold (fun a x => step a (h x)) s xs.
Proof.
elim: xs s => [|x xs IH] s //=.
by case: (step s (h x)) => [e|s'] //=.
Qed.

Lemma rmapM_all T U (f : T -> res U) (g : T -> U) (p : pred T) (xs : seq T) :
  all p xs -> (forall x, p x -> f x = inr (g x)) ->
  rmapM f xs = inr [seq g x | x <- xs].
Proof.
move=> Hall Hf; elim: xs Hall => [|x xs IH] //= /andP [Hx /IH ->].
by rewrite (Hf _ Hx).
Qed.

Lemma rmapM_map T T' U (f : T' -> res U) (h : T -> T') (xs : seq T) :
  rmapM f [seq h x | x <- xs] = rmapM (fun x => f (h x)) xs.
Proof. by elim: xs => [|x xs IH] //=; rewrite IH. Qed.

Lemma convert_inner_dict_3part (inner : dict key3 V) :
  uniq [seq join3 t | t <- dict_keys inner] ->
  convert_inner_dict [seq (tuple3 tv.1, tv.2) | tv <- inner] =
  inr [seq (join3 tv.1, tv.2) | tv <- inner].
Proof.
move=> Hu; rewrite /convert_inner_dict rfold_map.
pose f (tv : key3 * V) : res (string * V) := inr (join3 tv.1, tv.2).
have Hstep a (tv : key3 * V) :
    rbind (join (tuple3 tv.1, tv.2).1)
          (fun s => inr (dict_set a s (tuple3 tv.1, tv.2).2)) =
    rbind (f tv) (fun y => inr (dict_set a y.1 y.2)).
  by rewrite -[(tuple3 tv.1, tv.2).1]/(tuple3 tv.1) join_tuple3.
have Hkey x y : f x = inr y -> y.1 = join3 x.1 by case=> <-.
rewrite (rfold_ext _ _ Hstep) (rfold_rmapM Hkey) /=.
  by move: Hu; rewrite /dict_keys -map_comp.
have Hf x : predT x -> f x = inr (join3 x.1, x.2) by [].
by rewrite (rmapM_all (all_predT _) Hf).
Qed.

Lemma convert_results_format_3part (results : dict string (dict key3 V)) :
  uniq (dict_keys results) ->
  all (fun kv => uniq [seq join3 t | t <- dict_keys kv.2]) results ->
  convert_results_format (results3 results) =
  inr [seq (kv.1, [seq (join3 tv.1, tv.2) | tv <- kv.2]) | kv <- results].
Proof.
move=> Hu Hall; rewrite convert_uniqE;
  first by rewrite /results3 /dict_keys -map_comp.
rewrite /results3 rmapM_map.
apply: (rmapM_all Hall) => kv Hkv /=.
by rewrite convert_inner_dict_3part.
Qed.

Lemma dict_get_rename (K K' : eqType) (f : K -> K') (d : dict K V) (k : K) (v : V) :
  uniq [seq f x | x <- dict_keys d] ->
  dict_get d k = Some v ->
  dict_get [seq (f kv.1, kv.2) | kv <- d] (f k) = Some v.
Proof.
elim: d => [|[k0 v0] d IH] //= /andP [Hnotin Hu].
case: ifP => [/eqP -> [->]|ne Hget]; first by rewrite eqxx.
case: ifP => [/eqP e0|_]; last exact: IH.
case/negP: Hnotin; rewrite e0; apply: map_f.
elim: d Hget {IH Hu} => [|[k1 v1] d IH] //=.
by rewrite inE eq_sym; case: ifP => //= _ /IH.
Qed.

Lemma all_dict_get (K : eqType) U (q : U -> bool) (d : dict K U) (k : K) (u : U) :
  all (fun kv => q kv.2) d -> dict_get d k = Some u -> q u.
Proof.
elim: d => [|[k0 u0] d IH] //= /andP [Hq Hall].
by case: ifP => [_ [<-]|_ /(IH Hall)].
Qed.

Lemma formats_every_key_uniq (results : dict string (dict key3 V)) :
  uniq (dict_keys results) ->
  all (fun kv => uniq [seq join3 t | t <- dict_keys kv.2]) results ->
  formats_every_key results.
Proof.
move=> Hu Hall.
exists [seq (kv.1, [seq (join3 tv.1, tv.2) | tv <- kv.2]) | kv <- results].
  exact: convert_results_format_3part.
split; first by rewrite /dict_keys -map_comp.
move=> o inner t v Ho Ht.
exists [seq (join3 tv.1, tv.2) | tv <- inner].
  have := dict_get_map_values
            (fun i : dict key3 V => [seq (join3 tv.1, tv.2) | tv <- i]) results o.
  by rewrite Ho.
apply: dict_get_rename => //.
exact: (all_dict_get (q := fun i : dict key3 V =>
                             uniq [seq join3 t | t <- dict_keys i]) Hall Ho).
Qed.

End Formatting.

(** a bare string is joined character by character, a character of
    several bytes staying whole *)
Example join_bare_string :
  join (OAtom (AStr (String (ascii_of_nat 195)
                       (String (ascii_of_nat 169) "b")))) =
  inr (String (ascii_of_nat 195) (String (ascii_of_nat 169) " | b")).
Proof. by []. Qed.

Example colliding_converted :
  convert_results_format (results3 colliding) =
  inr [:: ("act"%string, [:: ("a | b | c | d"%string, 2%N)])].
Proof. by []. Qed.

(** ** The matrices of the scenario *)

Lemma toy_A_mul : toy_A *m toy_A_inv = 1%:M.
Proof.
apply/matrixP => i j; rewrite !mxE !big_ord_recl big_ord0 !mxE /=.
by case: i => [[|[|i]]] //= Hi; case: j => [[|[|j]]] //= Hj.
Qed.

Lemma toy_unit : pd_technosphere toy \in unitmx.
Proof. by case: (mulmx1_unit toy_A_mul). Qed.

Lemma toy_inv : invmx (pd_technosphere toy) = toy_A_inv.
Proof. by rewrite -[LHS]mulmx1 -toy_A_mul mulKmx // toy_unit. Qed.

Lemma toy_solve (f : 'cV[rat]_(pd_n toy)) :
  solve_linear_system f = inr (toy_A_inv *m f).
Proof. by rewrite /solve_linear_system toy_unit toy_inv. Qed.

(** the score of a demand in the scenario: the method's factor times the
    five units of E emitted per unit of P2, of which P1 needs two *)
Lemma toy_score (c : rat) (d : dict nat rat) :
  mx_sum (c%:M *m (pd_biosphere toy *m (toy_A_inv *m demand_array toy d))) =
  c * (5%:Q * (2%:Q * odflt 0 (dict_get d 0%N) + odflt 0 (dict_get d 1%N))).
Proof.
rewrite /mx_sum !big_ord1 mul_scalar_mx !mxE !big_ord_recl big_ord0 !mxE /=.
rewrite !big_ord_recl !big_ord0 !mxE /=.
by rewrite !mul0r !add0r !mul1r !addr0.
Qed.

(** evaluating [staticLCA] on the scenario: unfold the loops, solve with the
    known inverse, and compare the rational scores *)
Ltac run_toy :=
  rewrite /staticLCA /=;
  do ?[progress rewrite /lci /demand_step /score_step /= ?toy_solve /=];
  rewrite /int_demand_of /dict_of_items /= ?toy_score /=;
  rewrite /lift /convert_results_format /convert_inner_dict /=.

Ltac rat_eq :=
  repeat (congr (_, _) || congr (_ :: _) || congr (Some _) || congr (inr _));
  try by apply/eqP.

(** ** The scenario of the specification *)

(** the scaling vector and the inventory of one unit of P1:
    s = (1, 2) and g = 10 *)
Example scenario_supply :
  toy_A_inv *m demand_array toy [:: (0%N, 1)] = mx_of_rows 2 1 [:: [:: 1]; [:: 2%:Q]].
Proof.
apply/matrixP => i j; rewrite !mxE !big_ord_recl big_ord0 !mxE /=.
by case: i => [[|[|i]]] //= Hi; case: j => [[|j]] //= Hj;
   rewrite ?mulr1 ?mulr0 ?addr0 ?add0r.
Qed.

Example scenario_inventory :
  pd_biosphere toy *m (toy_A_inv *m demand_array toy [:: (0%N, 1)]) = (10%:Q)%:M.
Proof.
rewrite scenario_supply.
apply/matrixP => i j; rewrite !mxE !big_ord_recl big_ord0 !mxE /=.
by case: i => [[|i]] //= Hi; case: j => [[|j]] //= Hj.
Qed.

(** one unit of P1, two methods: s = (1, 2), g = 10, scores 30 and 10 *)
Example scenario_two_methods :
  staticLCA toy (MkLCAInput [:: d_P1] [:: m_gwp; m_unit]) =
  ([:: EvLCA [:: P1] m_gwp; EvLci None;
       EvSwitchMethod m_gwp; EvSwitchMethod m_unit;
       EvGetActivity P1; EvLci (Some [:: (0%N, 1)]);
       EvSwitchMethod m_gwp; EvCharacterize m_gwp;
       EvSwitchMethod m_unit; EvCharacterize m_unit],
   inr [:: (label_P1, [:: (joined_gwp, Some 30%:Q); (joined_unit, Some 10%:Q)])]).
Proof. by run_toy; rat_eq. Qed.

Example scenario_P2 :
  staticLCA toy (MkLCAInput [:: d_P2] [:: m_gwp; m_unit]) =
  ([:: EvLCA [:: P2] m_gwp; EvLci None;
       EvSwitchMethod m_gwp; EvSwitchMethod m_unit;
       EvGetActivity P2; EvLci (Some [:: (1%N, 1)]);
       EvSwitchMethod m_gwp; EvCharacterize m_gwp;
       EvSwitchMethod m_unit; EvCharacterize m_unit],
   inr [:: (label_P2, [:: (joined_gwp, Some 15%:Q); (joined_unit, Some 5%:Q)])]).
Proof. by run_toy; rat_eq. Qed.

Example scenario_P1_alone :
  (staticLCA toy (MkLCAInput [:: d_P1] [:: m_gwp])).2 =
  inr [:: (label_P1, [:: (joined_gwp, Some 30%:Q)])].
Proof. by run_toy; rat_eq. Qed.

Example scenario_P1_twice_alone :
  (staticLCA toy (MkLCAInput [:: d_P1_twice] [:: m_gwp])).2 =
  inr [:: (label_P1, [:: (joined_gwp, Some 60%:Q)])].
Proof. by run_toy; rat_eq. Qed.

Example scenario_P1_then_twice :
  (staticLCA toy (MkLCAInput [:: d_P1; d_P1_twice] [:: m_gwp])).2 =
  inr [:: (label_P1, [:: (joined_gwp, Some 60%:Q)])].
Proof. by run_toy; rat_eq. Qed.

(** ** The checks of [run_lca] *)

Section RunLCAChecks.

Variable F : fieldType.
Variable pd : project F.

(** The first key that is not in the database stops the request with a
    404 that names it; the keys before it were looked up, the ones after it
    were not. *)
Lemma check_activities_unknown (database_name : string)
    (ds : seq (dict string F)) (ks1 ks2 : seq string) (k : string) :
  flatten [seq dict_keys d | d <- ds] = ks1 ++ k :: ks2 ->
  all (fun k' => isSome (dict_get (pd_activities pd) (database_name, k'))) ks1 ->
  dict_get (pd_activities pd) (database_name, k) = None ->
  check_activities pd database_name ds =
  ([seq EvDbGet database_name k' | k' <- rcons ks1 k],
   inl (HTTPException 404 (activity_not_found k))).
Proof.
rewrite /check_activities => -> Hall Hk.
elim: ks1 Hall => [|k1 ks1 IH] /=; first by rewrite Hk.
case Hk1: dict_get => [act|] //= /IH.
by case: foldM => log r [-> ->].
Qed.

(** When every key is in the database the check returns, having looked up
    every key once. *)
Lemma check_activities_known (database_name : string) (ds : seq (dict string F)) :
  all (fun k' => isSome (dict_get (pd_activities pd) (database_name, k')))
      (flatten [seq dict_keys d | d <- ds]) ->
  check_activities pd database_name ds =
  ([seq EvDbGet database_name k' | k' <- flatten [seq dict_keys d | d <- ds]],
   inr tt).
Proof.
rewrite /check_activities.
elim: (flatten _) => [|k ks IH] //=.
case Hk: dict_get => [act|] //= /IH.
by case: foldM => log r [-> ->].
Qed.

End RunLCAChecks.

Section RunLCANoMethods.

Variable F : fieldType.

Lemma check_activities_shape (pd : project F) (database_name : string)
    (ds : seq (dict string F)) :
  all (@is_db_get F) (check_activities pd database_name ds).1
  /\ (ok (check_activities pd database_name ds).2
      \/ exists k, (check_activities pd database_name ds).2 =
                   inl (HTTPException 404 (activity_not_found k))).
Proof.
rewrite /check_activities.
elim: (flatten _) => [|k ks [IH1 IH2]] /=; first by split=> //; left.
case: dict_get => [act|] /=; last by split=> //; right; exists k.
by case: foldM IH1 IH2 => log r /= IH1 IH2.
Qed.

(** A request with neither a method family nor a list of categories is
    refused with an HTTP error; the only calls made are the lookups of the
    demanded activities, so no LCA object is built and nothing is solved. *)
Lemma run_lca_without_methods (bw : bw2data F)
    (project_name database_name : string) (body : LCARequest F) :
  nonempty_str (req_lcia_method body) = None ->
  nonempty_list (req_impact_categories body) = None ->
  all (@is_db_get F) (run_lca bw project_name database_name body).2.1
  /\ exists status detail,
       (run_lca bw project_name database_name body).2.2 =
       inl (HTTPException status detail).
Proof.
move=> Hm Hc; rewrite /run_lca.
case: dict_get => [pd|] /=; last by split=> //; eexists; eexists.
case: ifP => _ /=; last by split=> //; eexists; eexists.
have [H1 H2] := check_activities_shape pd database_name (req_demands body).
case: check_activities H1 H2 => log [e|[]] /= H1 H2.
  by split=> //; case: H2 => // -[k [->]]; eexists; eexists.
rewrite /select_methods Hm Hc /= cats0; split=> //.
by eexists; eexists.
Qed.

End RunLCANoMethods.

Example run_lca_unknown_activity :
  run_lca toy_bw "demo" "db"
    (MkLCARequest [:: [:: ("P1"%string, 1)]; [:: ("P9"%string, 1)]] None
                  (Some "IPCC"%string)) =
  (set_current toy_bw "demo",
   ([:: EvDbGet "db" "P1"; EvDbGet "db" "P9"],
    inl (HTTPException 404 "Activity P9 not found."))).
Proof. by []. Qed.

Example run_lca_unknown_category :
  run_lca toy_bw "demo" "db"
    (MkLCARequest (req_demands req_both) (req_impact_categories req_both) None) =
  (set_current toy_bw "demo",
   ([:: EvDbGet "db" "P1"],
    inl (HTTPException 404 "Impact category not found."))).
Proof. by []. Qed.

Example run_lca_no_selection :
  run_lca toy_bw "demo" "db" (MkLCARequest (req_demands req_both) None None) =
  (set_current toy_bw "demo",
   ([:: EvDbGet "db" "P1"],
    inl (HTTPException 400 "No impact categories provided or lcia method provided."))).
Proof. by []. Qed.

(** a request with a family and with categories nobody registered runs on
    the two methods of the family *)
Example run_lca_both :
  run_lca toy_bw "demo" "db" req_both =
  (set_current toy_bw "demo",
   ([:: EvDbGet "db" "P1"; EvLCA [:: P1] m_gwp; EvLci None;
        EvSwitchMethod m_gwp; EvSwitchMethod m_unit;
        EvGetActivity P1; EvLci (Some [:: (0%N, 1)]);
        EvSwitchMethod m_gwp; EvCharacterize m_gwp;
        EvSwitchMethod m_unit; EvCharacterize m_unit],
    inr [:: (label_P1, [:: (joined_gwp, Some 30%:Q); (joined_unit, Some 10%:Q)])])).
Proof. by rewrite /run_lca /=; run_toy; rat_eq. Qed.

(** ** What the right-hand side of a demand is *)

Section RightHandSide.

Variable F : fieldType.

Lemma foldl_same_key (i : nat) (w : F) (vs : seq F) :
  foldl (fun (d : dict nat F) kv => dict_set d kv.1 kv.2) [:: (i, w)]
        [seq (i, v) | v <- vs] = [:: (i, last w vs)].
Proof. by elim: vs w => [|v vs IH] w //=; rewrite eqxx IH. Qed.

(** Every item of the demand is filed under the id of the first activity,
    so only the last amount survives. *)
Lemma int_demand_of_last (act : activity) (d : dict Key F) (k : Key) (v : F) :
  int_demand_of act (rcons d (k, v)) = [:: (act_id act, v)].
Proof.
rewrite /int_demand_of /dict_of_items.
have -> : [seq (act_id act, kv.2) | kv <- rcons d (k, v)] =
          [seq (act_id act, x) | x <- rcons [seq kv.2 | kv <- d] v].
  by rewrite !map_rcons -map_comp.
case: d => [|[k0 v0] d] //=.
by rewrite foldl_same_key last_rcons.
Qed.

(** For a demand with a single key the right-hand side is the requested
    amount at the id of that activity. *)
Lemma int_demand_of_single (act : activity) (k : Key) (v : F) :
  int_demand_of act [:: (k, v)] = [:: (act_id act, v)].
Proof. by []. Qed.

(** The assertion of [staticLCA] only looks at the first element of the
    list: when that one is not a tuple whose first item is a string, the
    run stops before any call. *)
Lemma staticLCA_first_malformed (pd : project F) (ds : seq (dict Key F))
    (m : pyobj) (ms : seq pyobj) :
  (if m is OTuple (AStr _ :: _) then false else true) ->
  (staticLCA pd (MkLCAInput ds (m :: ms))).1 = [::]
  /\ ~~ ok (staticLCA pd (MkLCAInput ds (m :: ms))).2.
Proof. by case: m => [a|[|[s|z] xs]|xs]. Qed.

(** The model constructor validates every element of the list. *)
Lemma new_LCAInput_rejects (ds : seq (dict Key F)) (ms1 ms2 : seq pyobj) (m : pyobj) :
  validate_method m = inl ValidationError ->
  ok (rfold (fun acc o => rbind (validate_method o) (fun t => inr (rcons acc t)))
            [::] ms1) ->
  new_LCAInput ds (ms1 ++ m :: ms2) = inl ValidationError.
Proof.
rewrite /new_LCAInput => Hm.
elim: ms1 [::] => [|o ms1 IH] acc /=; first by rewrite Hm.
by case: (validate_method o) => [e|t] //=; apply: IH.
Qed.

End RightHandSide.

(** ** The claims *)

Section Claims.

Variable F : fieldType.
Variable pd : project F.

(** With an empty list of methods [staticLCA] raises the [ValueError] at
    once: the log is empty, so no activity was looked up, no LCA object was
    built and nothing was solved. *)
Lemma staticLCA_no_methods (ds : seq (dict Key F)) :
  staticLCA pd (MkLCAInput ds [::]) = ([::], inl (ValueError no_methods_msg)).
Proof. by []. Qed.

(** C7. Multiplying every amount of every demand by a scalar [k]
    multiplies every score by [k], in exact arithmetic; a run that raises
    raises the same exception for the scaled demands.  This holds for every
    [k] of the field, the positive ones included. *)
Theorem staticLCA_linear (k : F) (ds : seq (dict Key F)) (ms : seq pyobj) :
  (staticLCA pd (MkLCAInput [seq scale_demand k d | d <- ds] ms)).2 =
  rmap (scale_results k (K2:=string)) (staticLCA pd (MkLCAInput ds ms)).2.
Proof. by rewrite !staticLCA_valueE staticLCA_value_scale. Qed.

(** C3, as amended.  When the first activities of two demands have
    different string renderings and each demand evaluates alone, the two
    evaluate together, and the joint result is the entry of the first
    followed by the entry of the second, each with the scores it has
    alone. *)
Theorem staticLCA_reuse (ms : seq pyobj) (d1 d2 : dict Key F) (a1 a2 : activity)
    (r1 r2 : dict string (dict string (option F))) :
  first_activity pd d1 = inr a1 ->
  first_activity pd d2 = inr a2 ->
  act_str a1 != act_str a2 ->
  (staticLCA pd (MkLCAInput [:: d1] ms)).2 = inr r1 ->
  (staticLCA pd (MkLCAInput [:: d2] ms)).2 = inr r2 ->
  (staticLCA pd (MkLCAInput [:: d1; d2] ms)).2 = inr (r1 ++ r2).
Proof. rewrite !staticLCA_valueE; exact: staticLCA_pair. Qed.

(** C9. A run that returns is keyed by the string rendering of the first
    activity of each demand: the keys of the result are these labels
    without repetition; when two demands have the same first key the result
    has fewer entries than there are demands; and the entry under a label
    is the one of the last demand filed under it, the same entry that
    demand gets when evaluated alone. *)
Theorem staticLCA_keyed_by_first_activity (ds : seq (dict Key F))
    (ms : seq pyobj) (r : dict string (dict string (option F))) :
  (staticLCA pd (MkLCAInput ds ms)).2 = inr r ->
  [/\ perm_eq (dict_keys r) (undup (labels pd ds)),
      size (labels pd ds) = size ds,
      ~~ uniq (first_keys ds) -> (size r < size ds)%N
    & forall ds1 d ds2 act,
        ds = ds1 ++ d :: ds2 ->
        first_activity pd d = inr act ->
        all (fun d' => label_of pd d' != Some (act_str act)) ds2 ->
        exists2 c,
          (staticLCA pd (MkLCAInput [:: d] ms)).2 = inr [:: (act_str act, c)]
          & dict_get r (act_str act) = Some c].
Proof.
rewrite staticLCA_valueE => /staticLCA_value_keyed [H1 H2 H3 H4].
split=> // ds1 d ds2 act Hds Hact Hne.
by rewrite staticLCA_valueE; apply: H4 Hds Hact Hne.
Qed.

End Claims.

(** C8, as amended.  For a result whose outer keys are distinct and in
    which no two method keys of one inner dictionary join to the same
    string, the formatting replaces every 3-part key by its parts joined
    with " | " and keeps the outer keys, the scores and the order. *)
Theorem convert_results_format_joins (V : Type) (results : dict string (dict key3 V)) :
  uniq (dict_keys results) ->
  all (fun kv => uniq [seq join3 t | t <- dict_keys kv.2]) results ->
  convert_results_format (results3 results) =
    inr [seq (kv.1, [seq (join3 tv.1, tv.2) | tv <- kv.2]) | kv <- results]
  /\ formats_every_key results.
Proof.
move=> Hu Hall; split; first exact: convert_results_format_3part.
exact: formats_every_key_uniq.
Qed.

(** ** The claims on the scenario *)

Example scenario_combined :
  staticLCA toy (MkLCAInput [:: d_combined] [:: m_gwp]) =
  ([:: EvLCA [:: P1; P2] m_gwp; EvLci None; EvSwitchMethod m_gwp;
       EvGetActivity P1; EvLci (Some [:: (0%N, 3%:Q)]);
       EvSwitchMethod m_gwp; EvCharacterize m_gwp],
   inr [:: (label_P1, [:: (joined_gwp, Some 90%:Q)])]).
Proof. by run_toy; rat_eq. Qed.

(** the score of the combined demand when the right-hand side holds each
    amount at its own process *)
Example combined_as_specified :
  mx_sum ((3%:Q)%:M *m (pd_biosphere toy *m
            (toy_A_inv *m demand_array toy [:: (0%N, 1); (1%N, 3%:Q)]))) = 75%:Q.
Proof. by rewrite toy_score /=; apply/eqP. Qed.

(** C1, at a demand with two keys.  For the demand that asks for one unit
    of P1 and three of P2, the right-hand side handed to the solver has the
    single entry 3 at the id of P1 and nothing at the id of P2, and the
    score is 90 where the right-hand side of the claim gives 75. *)
Theorem staticLCA_combined_demand_rhs :
  (staticLCA toy (MkLCAInput [:: d_combined] [:: m_gwp])).1 =
    [:: EvLCA [:: P1; P2] m_gwp; EvLci None; EvSwitchMethod m_gwp;
        EvGetActivity P1; EvLci (Some [:: (0%N, 3%:Q)]);
        EvSwitchMethod m_gwp; EvCharacterize m_gwp]
  /\ int_demand_of act_P1 d_combined = [:: (act_id act_P1, 3%:Q)]
  /\ (staticLCA toy (MkLCAInput [:: d_combined] [:: m_gwp])).2 =
       inr [:: (label_P1, [:: (joined_gwp, Some 90%:Q)])].
Proof. by rewrite scenario_combined. Qed.

Example scenario_two_demands :
  staticLCA toy (MkLCAInput [:: d_P1; d_P2] [:: m_gwp]) =
  ([:: EvLCA [:: P1; P2] m_gwp; EvLci None; EvSwitchMethod m_gwp;
       EvGetActivity P1; EvLci (Some [:: (0%N, 1)]);
       EvSwitchMethod m_gwp; EvCharacterize m_gwp;
       EvGetActivity P2; EvLci (Some [:: (1%N, 1)]);
       EvSwitchMethod m_gwp; EvCharacterize m_gwp],
   inr [:: (label_P1, [:: (joined_gwp, Some 30%:Q)]);
           (label_P2, [:: (joined_gwp, Some 15%:Q)])]).
Proof. by run_toy; rat_eq. Qed.

(** C2, at two demands and one method.  The run calls [lci] three times
    (once before the loop and once per demand, never asking for a
    factorization) and [switch_method], which loads the characterization
    matrix of the method, three times: once to fill [C_matrices] and once
    more for every demand. *)
Theorem staticLCA_repeats_work :
  [/\ count (@is_lca rat)
        (staticLCA toy (MkLCAInput [:: d_P1; d_P2] [:: m_gwp])).1 = 1%N,
      count (@is_lci rat)
        (staticLCA toy (MkLCAInput [:: d_P1; d_P2] [:: m_gwp])).1 = 3%N,
      count (@is_switch_method rat)
        (staticLCA toy (MkLCAInput [:: d_P1; d_P2] [:: m_gwp])).1 = 3%N
    & count (@is_characterize rat)
        (staticLCA toy (MkLCAInput [:: d_P1; d_P2] [:: m_gwp])).1 = 2%N].
Proof. by rewrite scenario_two_demands. Qed.

(** C3 fails as stated: two demands on the same activity. *)
Lemma reuse_fails_on_shared_activity :
  ~ reuse_equivalence toy [:: m_gwp] d_P1 d_P1_twice.
Proof.
move=> H.
have [H1 _] := H _ _ _ scenario_P1_alone scenario_P1_twice_alone
                 scenario_P1_then_twice.
have /= := H1 label_P1 [:: (joined_gwp, Some 30%:Q)] (erefl _).
by case=> /eqP.
Qed.

Lemma staticLCA_reuse_witness :
  [/\ first_activity toy d_P1 = inr act_P1,
      first_activity toy d_P2 = inr act_P2,
      act_str act_P1 != act_str act_P2,
      (staticLCA toy (MkLCAInput [:: d_P1] [:: m_gwp; m_unit])).2 =
        inr [:: (label_P1, [:: (joined_gwp, Some 30%:Q); (joined_unit, Some 10%:Q)])]
    & (staticLCA toy (MkLCAInput [:: d_P2] [:: m_gwp; m_unit])).2 =
        inr [:: (label_P2, [:: (joined_gwp, Some 15%:Q); (joined_unit, Some 5%:Q)])]]
  /\ (staticLCA toy (MkLCAInput [:: d_P1; d_P2] [:: m_gwp; m_unit])).2 =
       inr ([:: (label_P1, [:: (joined_gwp, Some 30%:Q); (joined_unit, Some 10%:Q)])]
            ++ [:: (label_P2, [:: (joined_gwp, Some 15%:Q); (joined_unit, Some 5%:Q)])]).
Proof.
have H1 : (staticLCA toy (MkLCAInput [:: d_P1] [:: m_gwp; m_unit])).2 =
    inr [:: (label_P1, [:: (joined_gwp, Some 30%:Q); (joined_unit, Some 10%:Q)])].
  by rewrite scenario_two_methods.
have H2 : (staticLCA toy (MkLCAInput [:: d_P2] [:: m_gwp; m_unit])).2 =
    inr [:: (label_P2, [:: (joined_gwp, Some 15%:Q); (joined_unit, Some 5%:Q)])].
  by rewrite scenario_P2.
split; first by split.
exact: (@staticLCA_reuse rat toy [:: m_gwp; m_unit] d_P1 d_P2 act_P1 act_P2
          _ _ (erefl _) (erefl _) (erefl _) H1 H2).
Defined.

(** C4, at an [lcia_method] that matches no registered method.  The request
    passes the activity check, the selection is empty, and the run ends in
    the [ValueError] of [staticLCA], not in a not-found error. *)
Theorem run_lca_unknown_lcia_method :
  run_lca toy_bw "demo" "db" req_unknown_family =
  (set_current toy_bw "demo",
   ([:: EvDbGet "db" "P1"], inl (ValueError no_methods_msg))).
Proof. by []. Qed.

(** [staticLCA] on a list that did not go through the constructor of
    [LCAInput] and whose second element is not a tuple: the assertion, which
    looks at the first element, passes, and the run stops only when the
    library is asked for the second element. *)
Example staticLCA_later_malformed :
  staticLCA toy (MkLCAInput [:: d_P1] [:: m_gwp; not_a_key]) =
  ([:: EvLCA [:: P1] m_gwp; EvLci None; EvSwitchMethod m_gwp;
       EvSwitchMethod not_a_key],
   inl (UnknownMethod not_a_key)).
Proof. by run_toy. Qed.

(** C8 fails as stated: two keys that join to the same string. *)
Lemma formatting_loses_colliding_key : ~ formats_every_key colliding.
Proof.
case=> converted; rewrite colliding_converted => -[<-] [_ H].
have Ho : dict_get colliding "act"%string =
          Some [:: (("a | b", "c", "d")%string, 1%N);
                   (("a", "b | c", "d")%string, 2%N)] by [].
have [inner' Hi Hj] := H _ _ ("a | b", "c", "d")%string 1%N Ho (erefl _).
by move: Hi Hj => /= [<-].
Qed.

Lemma convert_results_format_joins_witness :
  [/\ uniq (dict_keys well_keyed)
    & all (fun kv => uniq [seq join3 t | t <- dict_keys kv.2]) well_keyed]
  /\ (convert_results_format (results3 well_keyed) =
        inr [seq (kv.1, [seq (join3 tv.1, tv.2) | tv <- kv.2]) | kv <- well_keyed]
      /\ formats_every_key well_keyed).
Proof.
split; first by [].
exact: (@convert_results_format_joins nat well_keyed (erefl _) (erefl _)).
Defined.

Lemma staticLCA_keyed_by_first_activity_witness :
  (staticLCA toy (MkLCAInput [:: d_P1; d_P1_twice] [:: m_gwp])).2 =
    inr [:: (label_P1, [:: (joined_gwp, Some 60%:Q)])]
  /\ [/\ perm_eq (dict_keys [:: (label_P1, [:: (joined_gwp, Some 60%:Q)])])
                 (undup (labels toy [:: d_P1; d_P1_twice])),
         size (labels toy [:: d_P1; d_P1_twice]) = size [:: d_P1; d_P1_twice],
         ~~ uniq (first_keys [:: d_P1; d_P1_twice]) ->
           (size [:: (label_P1, [:: (joined_gwp, Some 60%:Q)])]
            < size [:: d_P1; d_P1_twice])%N
       & forall ds1 d ds2 act,
           [:: d_P1; d_P1_twice] = ds1 ++ d :: ds2 ->
           first_activity toy d = inr act ->
           all (fun d' => label_of toy d' != Some (act_str act)) ds2 ->
           exists2 c,
             (staticLCA toy (MkLCAInput [:: d] [:: m_gwp])).2 =
               inr [:: (act_str act, c)]
             & dict_get [:: (label_P1, [:: (joined_gwp, Some 60%:Q)])]
                        (act_str act) = Some c].
Proof.
split; first exact: scenario_P1_then_twice.
exact: (staticLCA_keyed_by_first_activity scenario_P1_then_twice).
Defined.

(** * Further properties of the code *)

(** ** [staticLCA]: the calls of a run that returns *)

Section CallOrder.

Variable F : fieldType.
Variable pd : project F.

(** X2. A run of [staticLCA] that returns has made its calls in this
    order: the LCA object for the keys of all demands and the first method,
    one [lci] for all demands, one [switch_method] per method, and then for
    each demand in turn the lookup of its first key, one [lci] on its
    right-hand side, and for each method a [switch_method] followed by the
    product that gives the score. *)
Theorem staticLCA_call_order (ds : seq (dict Key F)) (ms : seq pyobj)
    (r : dict string (dict string (option F))) :
  (staticLCA pd (MkLCAInput ds ms)).2 = inr r ->
  (staticLCA pd (MkLCAInput ds ms)).1 =
  [:: EvLCA (dict_keys (all_demands_of ds)) (head (OTuple [::]) ms), EvLci None
    & [seq EvSwitchMethod m | m <- ms]
      ++ flatten [seq demand_log pd ms d | d <- ds]].
Proof. by move=> /staticLCA_logE ->. Qed.

End CallOrder.

Lemma staticLCA_call_order_witness :
  (staticLCA toy (MkLCAInput [:: d_P1; d_P2] [:: m_gwp])).2 =
    inr [:: (label_P1, [:: (joined_gwp, Some 30%:Q)]);
            (label_P2, [:: (joined_gwp, Some 15%:Q)])]
  /\ (staticLCA toy (MkLCAInput [:: d_P1; d_P2] [:: m_gwp])).1 =
     [:: EvLCA (dict_keys (all_demands_of [:: d_P1; d_P2]))
               (head (OTuple [::]) [:: m_gwp]), EvLci None
       & [seq EvSwitchMethod m | m <- [:: m_gwp]]
         ++ flatten [seq demand_log toy [:: m_gwp] d | d <- [:: d_P1; d_P2]]].
Proof.
have H : (staticLCA toy (MkLCAInput [:: d_P1; d_P2] [:: m_gwp])).2 =
    inr [:: (label_P1, [:: (joined_gwp, Some 30%:Q)]);
            (label_P2, [:: (joined_gwp, Some 15%:Q)])].
  by rewrite scenario_two_demands.
split; first exact: H.
exact: (staticLCA_call_order H).
Defined.

Lemma staticLCA_counts_witness :
  (staticLCA toy (MkLCAInput [:: d_P1; d_P2] [:: m_gwp])).2 =
    inr [:: (label_P1, [:: (joined_gwp, Some 30%:Q)]);
            (label_P2, [:: (joined_gwp, Some 15%:Q)])]
  /\ [/\ count (@is_lca rat)
           (staticLCA toy (MkLCAInput [:: d_P1; d_P2] [:: m_gwp])).1 = 1%N,
         count (@is_lci rat)
           (staticLCA toy (MkLCAInput [:: d_P1; d_P2] [:: m_gwp])).1 = 3%N,
         count (@is_switch_method rat)
           (staticLCA toy (MkLCAInput [:: d_P1; d_P2] [:: m_gwp])).1
           = (1 + 2 * 1)%N
       & count (@is_characterize rat)
           (staticLCA toy (MkLCAInput [:: d_P1; d_P2] [:: m_gwp])).1
           = (2 * 1)%N].
Proof.
have H : (staticLCA toy (MkLCAInput [:: d_P1; d_P2] [:: m_gwp])).2 =
    inr [:: (label_P1, [:: (joined_gwp, Some 30%:Q)]);
            (label_P2, [:: (joined_gwp, Some 15%:Q)])].
  by rewrite scenario_two_demands.
split; first exact: H.
exact: (staticLCA_counts H).
Defined.

(** ** [staticLCA]: what a demand with several keys amounts to *)

Section Collapse.

Variable F : fieldType.
Variable pd : project F.






End Collapse.


(** ** [staticLCA]: what a returned result holds *)

Section Complete.

Variable F : fieldType.
Variable pd : project F.

Lemma notin_keys (K : eqType) V (d : dict K V) (k : K) :
  k \notin dict_keys d -> all (fun kv => kv.1 != k) d.
Proof.
elim: d => [|[k' v'] d IH] //=.
by rewrite inE negb_or eq_sym => /andP [-> /IH].
Qed.

Lemma some_dict_set (K : eqType) V (d : dict K (option V)) (S : seq K)
    (k : K) (v : V) :
  uniq (dict_keys d) ->
  all (fun kv => isSome kv.2 || (kv.1 \in k :: S)) d ->
  all (fun kv => isSome kv.2 || (kv.1 \in S)) (dict_set d k (Some v)).
Proof.
elim: d => [|[k' v'] d IH] //= /andP [Hnotin Hu] /andP [Hk' Hd].
case: ifP => [/eqP E|ne] /=; last first.
  by rewrite IH // andbT; move: Hk'; rewrite inE ne.
move: (notin_keys Hnotin); rewrite E => Hne.
elim: d Hd Hne {IH Hu Hnotin} => [|[k1 v1] d IH] //=.
move=> /andP [H1 /IH Hd] /andP [Hk1 /Hd ->]; rewrite andbT.
by move: H1; rewrite inE (negbTE Hk1).
Qed.

Lemma inner_of_some (Cs : C_dict pd) (g : 'cV[F]_(pd_p pd))
    (inner0 inner : dict pyobj (option F)) (ms : seq pyobj) :
  inner_of Cs g inner0 ms = inr inner ->
  uniq (dict_keys inner0) ->
  all (fun kv => isSome kv.2 || (kv.1 \in ms)) inner0 ->
  all (fun kv => isSome kv.2) inner.
Proof.
rewrite /inner_of; elim: ms inner0 => [|m ms IH] inner0 /=.
  by case=> <- _; apply: sub_all => kv; rewrite orbF.
case: load_lcia_data => [e|_] //=.
case: dict_get => [C|] //= /IH H Hu Hall; apply: H.
  by rewrite uniq_dict_keys_set.
exact: some_dict_set.
Qed.

Lemma inner_of_keys (Cs : C_dict pd) (g : 'cV[F]_(pd_p pd))
    (inner0 inner : dict pyobj (option F)) (ms : seq pyobj) :
  inner_of Cs g inner0 ms = inr inner ->
  dict_keys inner =i dict_keys inner0 ++ ms.
Proof.
rewrite /inner_of; elim: ms inner0 => [|m ms IH] inner0 /=.
  by case=> <- k; rewrite cats0.
case: load_lcia_data => [e|_] //=.
case: dict_get => [C|] //= /IH H k.
rewrite H !mem_cat mem_dict_keys_set inE.
by rewrite orbA [(k == m) || _]orbC.
Qed.

Lemma uniq_dict_of_items (K : eqType) V (items : seq (K * V)) :
  uniq (dict_keys (dict_of_items items)).
Proof.
rewrite /dict_of_items.
have: uniq (dict_keys (@nil (K * V))) by [].
elim: items [::] => [|[k v] items IH] acc //= Hu.
by apply: IH; rewrite uniq_dict_keys_set.
Qed.

Lemma none_dict_of_items (ms : seq pyobj) :
  all (fun kv => kv.1 \in ms)
      (dict_of_items [seq (m, @None F) | m <- ms]).
Proof.
apply/allP => -[k v] Hkv /=.
have: k \in dict_keys (dict_of_items [seq (m, @None F) | m <- ms]).
  by apply/mapP; exists (k, v).
by rewrite mem_dict_of_items -map_comp map_id.
Qed.

Lemma demand_entry_scored (ms : seq pyobj) (Cs : C_dict pd) (d : dict Key F)
    (e : string * dict pyobj (option F)) :
  demand_entry ms Cs d = inr e ->
  all (fun kv => isSome kv.2) e.2 /\ dict_keys e.2 =i ms.
Proof.
rewrite /demand_entry.
case: first_activity => [x|act] //=.
case: inventory_of => [x|g] //=.
case Hi: (inner_of Cs g _ ms) => [x|inner] //= [<-] /=; split.
  apply: (inner_of_some Hi); first exact: uniq_dict_of_items.
  by apply: sub_all (none_dict_of_items ms) => kv ->; rewrite orbT.
move=> k; rewrite (inner_of_keys Hi) mem_cat mem_dict_of_items.
by rewrite -map_comp map_id orbb.
Qed.

Lemma vals_dict_set (K : eqType) V (q : V -> bool) (d : dict K V)
    (k : K) (v : V) :
  q v -> all (fun kv => q kv.2) d -> all (fun kv => q kv.2) (dict_set d k v).
Proof.
move=> Hv; elim: d => [|[k' v'] d IH] /=; first by rewrite Hv.
case/andP=> Hv' Hd; case: ifP => _ /=; first by rewrite Hv Hd.
by rewrite Hv' IH.
Qed.

Lemma results_of_all (q : dict pyobj (option F) -> bool) (ms : seq pyobj)
    (Cs : C_dict pd) (rs0 rs : results_dict F) (ds : seq (dict Key F)) :
  (forall d e, demand_entry ms Cs d = inr e -> q e.2) ->
  all (fun kv => q kv.2) rs0 ->
  results_of ms Cs rs0 ds = inr rs ->
  all (fun kv => q kv.2) rs.
Proof.
move=> Hq; rewrite /results_of; elim: ds rs0 => [|d ds IH] rs0 /=.
  by move=> H [<-].
case He: (demand_entry ms Cs d) => [x|e] //= H0; apply: IH.
by apply: vals_dict_set => //; apply: Hq He.
Qed.

Lemma convert_inner_vals V (q : V -> bool) (acc c : dict string V)
    (inner : dict pyobj V) :
  rfold (fun acc kv => rbind (join kv.1) (fun s => inr (dict_set acc s kv.2)))
        acc inner = inr c ->
  all (fun kv => q kv.2) acc -> all (fun kv => q kv.2) inner ->
  all (fun kv => q kv.2) c.
Proof.
elim: inner acc => [|[k v] inner IH] acc /=; first by case=> <-.
case: (join k) => [e|s] //= /IH H Hacc /andP [Hv Hin]; apply: H => //.
exact: vals_dict_set.
Qed.

Lemma convert_inner_keys V (acc c : dict string V) (inner : dict pyobj V) :
  rfold (fun acc kv => rbind (join kv.1) (fun s => inr (dict_set acc s kv.2)))
        acc inner = inr c ->
  all (fun k => ok (join k)) (dict_keys inner)
  /\ forall s, (s \in dict_keys c) =
               (s \in dict_keys acc) || has (joins_to s) (dict_keys inner).
Proof.
elim: inner acc => [|[k v] inner IH] acc /=.
  by case=> <-; split=> // s; rewrite orbF.
rewrite /joins_to; case: (join k) => [e|s'] //= /IH [Hok Hk]; split=> // s.
by rewrite Hk mem_dict_keys_set orbA [(s == s') || _]orbC eq_sym.
Qed.

Lemma convert_results_all V (q : dict pyobj V -> bool)
    (q' : dict string V -> bool) (acc r : dict string (dict string V))
    (rs : dict string (dict pyobj V)) :
  (forall i c, q i -> convert_inner_dict i = inr c -> q' c) ->
  rfold (fun converted_results kv =>
           rbind (convert_inner_dict kv.2)
                 (fun converted_inner_dict =>
                    inr (dict_set converted_results kv.1 converted_inner_dict)))
        acc rs = inr r ->
  all (fun kv => q' kv.2) acc -> all (fun kv => q kv.2) rs ->
  all (fun kv => q' kv.2) r.
Proof.
move=> Hq; elim: rs acc => [|[o i] rs IH] acc /=; first by case=> <-.
case Hc: (convert_inner_dict i) => [e|c] //= /IH H Hacc /andP [Hi Hrs].
apply: H => //; apply: vals_dict_set => //.
exact: Hq Hi Hc.
Qed.

(** X21. Every entry of a result that [staticLCA] returns is complete:
    none of its scores is [None], each of its keys is the joined name of
    one of the methods asked for, and each method asked for has its joined
    name among the keys. *)
Theorem staticLCA_entries_complete (ds : seq (dict Key F)) (ms : seq pyobj)
    (r : dict string (dict string (option F))) :
  (staticLCA pd (MkLCAInput ds ms)).2 = inr r ->
  all (fun kv =>
         [&& all (fun tv => isSome tv.2) kv.2,
             all (fun s => has (joins_to s) ms) (dict_keys kv.2)
           & all (fun m => has (joins_to^~ m) (dict_keys kv.2)) ms]) r.
Proof.
rewrite staticLCA_valueE => /staticLCA_value_inv [Cs [_ E _]].
case Hrs: (results_of ms Cs [::] ds) E => [x|rs] //= Hr.
pose q (inner : dict pyobj (option F)) :=
  [&& all (fun kv => isSome kv.2) inner,
      all (fun k => k \in ms) (dict_keys inner)
    & all (fun m => m \in dict_keys inner) ms].
have Hq : all (fun kv => q kv.2) rs.
  apply: (results_of_all _ _ Hrs) => // d e /demand_entry_scored [Hs Hk].
  by rewrite /q Hs /=; apply/andP; split; apply/allP => k; rewrite Hk.
pose q' (c : dict string (option F)) :=
  [&& all (fun tv => isSome tv.2) c,
      all (fun s => has (joins_to s) ms) (dict_keys c)
    & all (fun m => has (joins_to^~ m) (dict_keys c)) ms].
apply: (@convert_results_all _ q q' [::] r rs _ Hr _ Hq) => //.
move=> i c /and3P [Hs Hsub Hsup].
rewrite /convert_inner_dict => Hc.
have [Hok Hkeys] := convert_inner_keys Hc.
apply/and3P; split.
- exact: (convert_inner_vals Hc).
- apply/allP => s; rewrite Hkeys /= => /hasP [k Hk Hj].
  by apply/hasP; exists k => //; apply: (allP Hsub).
- apply/allP => m /(allP Hsup) Hm.
  have := allP Hok m Hm; case Hj: (join m) => [e|s] // _.
  apply/hasP; exists s; last by rewrite /joins_to Hj.
  by rewrite Hkeys /=; apply/hasP; exists m => //; rewrite /joins_to Hj.
Qed.

End Complete.

Lemma staticLCA_entries_complete_witness :
  (staticLCA toy (MkLCAInput [:: d_P1; d_P2] [:: m_gwp])).2 =
    inr [:: (label_P1, [:: (joined_gwp, Some 30%:Q)]);
            (label_P2, [:: (joined_gwp, Some 15%:Q)])]
  /\ all (fun kv =>
           [&& all (fun tv => isSome tv.2) kv.2,
               all (fun s => has (joins_to s) [:: m_gwp]) (dict_keys kv.2)
             & all (fun m => has (joins_to^~ m) (dict_keys kv.2)) [:: m_gwp]])
         [:: (label_P1, [:: (joined_gwp, Some 30%:Q)]);
             (label_P2, [:: (joined_gwp, Some 15%:Q)])].
Proof.
have H : (staticLCA toy (MkLCAInput [:: d_P1; d_P2] [:: m_gwp])).2 =
    inr [:: (label_P1, [:: (joined_gwp, Some 30%:Q)]);
            (label_P2, [:: (joined_gwp, Some 15%:Q)])].
  by rewrite scenario_two_demands.
split; first exact: H.
exact: (staticLCA_entries_complete H).
Defined.

(** ** [staticLCA]: a method that is listed more than once *)

Section Repeated.

Variable F : fieldType.
Variable pd : project F.

Lemma first_occurrences_rcons (T : eqType) (s : seq T) (x : T) :
  first_occurrences (rcons s x) =
  if x \in s then first_occurrences s else rcons (first_occurrences s) x.
Proof.
by rewrite /first_occurrences rev_rcons /= mem_rev; case: ifP; rewrite ?rev_cons.
Qed.

Lemma mem_first_occurrences (T : eqType) (s : seq T) :
  first_occurrences s =i s.
Proof. by move=> x; rewrite /first_occurrences mem_rev mem_undup mem_rev. Qed.

Lemma first_occurrences_uniq (T : eqType) (s : seq T) :
  uniq (first_occurrences s).
Proof. by rewrite /first_occurrences rev_uniq undup_uniq. Qed.

Lemma head_first_occurrences (T : eqType) (x0 : T) (s : seq T) :
  head x0 (first_occurrences s) = head x0 s.
Proof.
elim/last_ind: s => [|s x IH] //; rewrite first_occurrences_rcons.
case: s IH => [|y s] //= IH.
case: ifP => _ //.
have: y \in first_occurrences (y :: s) by rewrite mem_first_occurrences inE eqxx.
by case: (first_occurrences (y :: s)) IH.
Qed.

Lemma first_occurrences_nil (T : eqType) (s : seq T) :
  (size (first_occurrences s) == 0%N) = (size s == 0%N).
Proof.
case: s => [|x s] //=.
have: x \in first_occurrences (x :: s) by rewrite mem_first_occurrences inE eqxx.
by case: (first_occurrences (x :: s)).
Qed.

Lemma rfold_rcons S X (step : S -> X -> res S) (s : S) (xs : seq X) (x : X) :
  rfold step s (rcons xs x) = rbind (rfold step s xs) (fun s' => step s' x).
Proof.
elim: xs s => [|y xs IH] s /=; first by case: (step s x).
by case: (step s y) => [e|s'] //=.
Qed.

Lemma rfold_first_occurrences S (T : eqType) (step : S -> T -> res S) (s0 : S) :
  (forall xs x s', rfold step s0 xs = inr s' -> x \in xs -> step s' x = inr s') ->
  forall xs, rfold step s0 (first_occurrences xs) = rfold step s0 xs.
Proof.
move=> Habs; elim/last_ind => [|xs x IH] //.
rewrite first_occurrences_rcons rfold_rcons; case: ifP => Hx.
  rewrite IH; case Hr: (rfold step s0 xs) => [e|s'] //=.
  by rewrite (Habs _ _ _ Hr Hx).
by rewrite rfold_rcons IH.
Qed.

Lemma cache_of_kept (C0 Cs : C_dict pd) (xs : seq pyobj) (x : pyobj)
    (C : 'M[F]_(pd_p pd)) :
  cache_of C0 xs = inr Cs -> load_lcia_data pd x = inr C ->
  dict_get C0 x = Some C -> dict_get Cs x = Some C.
Proof.
rewrite /cache_of; elim: xs C0 => [|y xs IH] C0 /=; first by case=> <-.
case Hy: (load_lcia_data pd y) => [e|Cy] //=.
case: ifP => // _ /IH H Hx H0; apply: H => //.
case: (y =P x) => [E|/eqP ne]; last by rewrite dict_get_set_neq // eq_sym.
by move: Hy; rewrite E Hx => -[<-]; rewrite dict_get_set.
Qed.

Lemma cache_of_absorbs (C0 Cs : C_dict pd) (xs : seq pyobj) (x : pyobj) :
  cache_of C0 xs = inr Cs -> x \in xs ->
  rbind (load_lcia_data pd x) (fun C =>
    if hashable x then inr (dict_set Cs x C) else inl TypeError) = inr Cs.
Proof.
rewrite /cache_of; elim: xs C0 => [|y xs IH] C0 //=.
case Hy: (load_lcia_data pd y) => [e|Cy] //=.
case Hh: (hashable y) => // Hr.
rewrite inE => /orP [/eqP ->|]; last exact: IH Hr.
rewrite Hy /= Hh dict_set_get //.
by apply: (cache_of_kept Hr Hy); rewrite dict_get_set.
Qed.

Lemma inner_of_kept (Cs : C_dict pd) (g : 'cV[F]_(pd_p pd))
    (i0 i : dict pyobj (option F)) (xs : seq pyobj) (x : pyobj)
    (C : 'M[F]_(pd_p pd)) :
  inner_of Cs g i0 xs = inr i -> dict_get Cs x = Some C ->
  dict_get i0 x = Some (Some (mx_sum (C *m g))) ->
  dict_get i x = Some (Some (mx_sum (C *m g))).
Proof.
rewrite /inner_of; elim: xs i0 => [|y xs IH] i0 /=; first by case=> <-.
case: (load_lcia_data pd y) => [e|_] //=.
case Hy: (dict_get Cs y) => [Cy|] //= /IH H Hx H0; apply: H => //.
case: (y =P x) => [E|/eqP ne]; last by rewrite dict_get_set_neq // eq_sym.
by move: Hy; rewrite E Hx => -[<-]; rewrite dict_get_set.
Qed.

Lemma inner_of_absorbs (Cs : C_dict pd) (g : 'cV[F]_(pd_p pd))
    (i0 i : dict pyobj (option F)) (xs : seq pyobj) (x : pyobj) :
  inner_of Cs g i0 xs = inr i -> x \in xs ->
  rbind (load_lcia_data pd x) (fun _ =>
    if dict_get Cs x is Some C
    then inr (dict_set i x (Some (mx_sum (C *m g))))
    else inl KeyError) = inr i.
Proof.
rewrite /inner_of; elim: xs i0 => [|y xs IH] i0 //=.
case Hl: (load_lcia_data pd y) => [e|Cl] //=.
case Hy: (dict_get Cs y) => [Cy|] //= Hr.
rewrite inE => /orP [/eqP ->|]; last exact: IH Hr.
rewrite Hl /= Hy dict_set_get //.
by apply: (inner_of_kept Hr Hy); rewrite dict_get_set.
Qed.

Lemma none_first_occurrences (ms : seq pyobj) :
  dict_of_items [seq (m, @None F) | m <- first_occurrences ms] =
  dict_of_items [seq (m, @None F) | m <- ms].
Proof.
have Hget (xs : seq pyobj) (x : pyobj) :
    x \in xs ->
    dict_get (dict_of_items [seq (m, @None F) | m <- xs]) x = Some None.
  rewrite /dict_of_items.
  have: forall acc : dict pyobj (option F),
      (x \in xs) || (dict_get acc x == Some None) ->
      dict_get (foldl (fun d kv => dict_set d kv.1 kv.2) acc
                      [seq (m, @None F) | m <- xs]) x = Some None.
    elim: xs => [|y xs IH] acc /=; first by move/eqP.
    rewrite inE => H; apply: IH.
    case: (x =P y) H => [->|/eqP ne] /=; first by rewrite dict_get_set eqxx orbT.
    by rewrite dict_get_set_neq.
  by move=> H Hx; apply: H; rewrite Hx.
have Hrcons (xs : seq pyobj) (x : pyobj) :
    dict_of_items [seq (m, @None F) | m <- rcons xs x] =
    dict_set (dict_of_items [seq (m, @None F) | m <- xs]) x None.
  by rewrite /dict_of_items map_rcons -cats1 foldl_cat.
elim/last_ind: ms => [|ms x IH] //.
rewrite first_occurrences_rcons Hrcons; case: ifP => Hx.
  by rewrite IH dict_set_get // Hget.
by rewrite Hrcons IH.
Qed.

Lemma inner_of_first_occurrences (Cs : C_dict pd) (g : 'cV[F]_(pd_p pd))
    (i0 : dict pyobj (option F)) (ms : seq pyobj) :
  inner_of Cs g i0 (first_occurrences ms) = inner_of Cs g i0 ms.
Proof.
rewrite /inner_of; apply: rfold_first_occurrences => xs x i Hr Hx.
exact: (inner_of_absorbs Hr Hx).
Qed.

Lemma cache_of_first_occurrences (C0 : C_dict pd) (ms : seq pyobj) :
  cache_of C0 (first_occurrences ms) = cache_of C0 ms.
Proof.
rewrite /cache_of; apply: rfold_first_occurrences => xs x Cs Hr Hx.
exact: (cache_of_absorbs Hr Hx).
Qed.

Lemma results_of_first_occurrences (Cs : C_dict pd) (rs : results_dict F)
    (ms : seq pyobj) (ds : seq (dict Key F)) :
  results_of (first_occurrences ms) Cs rs ds = results_of ms Cs rs ds.
Proof.
rewrite /results_of; apply: rfold_ext => rs' d.
rewrite /demand_entry none_first_occurrences.
case: first_activity => [e|act] //=; case: inventory_of => [e|g] //=.
by rewrite inner_of_first_occurrences.
Qed.

(** X24. Listing a method more than once changes nothing in what
    [staticLCA] returns: the result, or the exception, is the one of the
    list without the later occurrences. *)
Theorem staticLCA_repeated_methods (ds : seq (dict Key F)) (ms : seq pyobj) :
  (staticLCA pd (MkLCAInput ds ms)).2 =
  (staticLCA pd (MkLCAInput ds (first_occurrences ms))).2.
Proof.
rewrite !staticLCA_valueE /staticLCA_value /=.
rewrite first_occurrences_nil head_first_occurrences.
have -> : (assert_methods F (first_occurrences ms)).2 = (assert_methods F ms).2.
  have := head_first_occurrences (OAtom (ANum 0)) ms.
  have := first_occurrences_nil ms.
  by case: ms (first_occurrences ms) => [|m ms] [|m' ms'] //= _ ->.
rewrite cache_of_first_occurrences.
by do 5![case: (X in rbind X _) => [e|?] //=];
   rewrite results_of_first_occurrences.
Qed.

End Repeated.

(** ** [staticLCA] and [LCAInput]: which lists of methods get through *)

Section Validation.

Variable F : fieldType.

Lemma validate_methodE (o : pyobj) :
  validate_method o =
  if three_strings o then inr (as_tuple o) else inl ValidationError.
Proof.
by case: o => [a|xs|xs] //=; case: (strings_of xs) => [[|a [|b [|c [|e ss]]]]|].
Qed.

Lemma validate_loop (acc ms : seq pyobj) :
  rfold (fun acc o => rbind (validate_method o) (fun t => inr (rcons acc t)))
        acc ms =
  if all three_strings ms then inr (acc ++ [seq as_tuple o | o <- ms])
  else inl ValidationError.
Proof.
elim: ms acc => [|o ms IH] acc /=; first by rewrite cats0.
rewrite validate_methodE; case: (three_strings o) => //=.
by rewrite IH cat_rcons.
Qed.

Lemma new_LCAInputE (ds : seq (dict Key F)) (ms : seq pyobj) :
  new_LCAInput ds ms =
  if all three_strings ms then inr (MkLCAInput ds [seq as_tuple o | o <- ms])
  else inl ValidationError.
Proof. by rewrite /new_LCAInput validate_loop; case: all. Qed.

(** X5. The constructor of [LCAInput] lets through exactly the lists whose
    elements are all lists or tuples of three strings, and stores them as
    tuples; on a non-empty list that got through, the assertion of
    [staticLCA] holds, so behind the constructor it never fails. *)
Theorem new_LCAInput_three_strings (ds : seq (dict Key F)) (ms : seq pyobj) :
  new_LCAInput ds ms =
    (if all three_strings ms
     then inr (MkLCAInput ds [seq as_tuple o | o <- ms])
     else inl ValidationError)
  /\ (all three_strings ms -> ms != [::] ->
      assert_methods F [seq as_tuple o | o <- ms] = ret tt).
Proof.
split; first exact: new_LCAInputE.
case: ms => [|[a|xs|xs] ms] //=;
  by case: xs => [|[s|z] xs] //=; case: (strings_of xs).
Qed.

(** X4. [staticLCA] checks the first element of the list only, and before
    any call: when that element is not a tuple, or a tuple whose first item
    is not a string, the run ends at once in the assertion error (in an
    [IndexError] for the empty tuple), with an empty log. *)
Theorem staticLCA_first_element_checked (pd : project F)
    (ds : seq (dict Key F)) (m : pyobj) (ms : seq pyobj) :
  (if m is OTuple (AStr _ :: _) then false else true) ->
  staticLCA pd (MkLCAInput ds (m :: ms)) =
  ([::], inl (if m is OTuple [::] then IndexError
              else AssertionError assert_msg)).
Proof. by case: m => [a|[|[s|z] xs]|xs]. Qed.

End Validation.

Lemma staticLCA_first_element_checked_witness :
  (if not_a_key is OTuple (AStr _ :: _) then false else true)
  /\ staticLCA toy (MkLCAInput [:: d_P1] [:: not_a_key; m_gwp]) =
     ([::], inl (if not_a_key is OTuple [::] then IndexError
                 else AssertionError assert_msg)).
Proof.
split; first by [].
exact: (@staticLCA_first_element_checked rat toy [:: d_P1] not_a_key
          [:: m_gwp] (erefl _)).
Defined.

(** ** [run_lca]: the order of its refusals *)

Section Refusals.

Variable F : fieldType.
Variable bw : bw2data F.
Variable pd : project F.
Variables project_name database_name : string.

Hypothesis Hproject : dict_get (bw_projects bw) project_name = Some pd.
Hypothesis Hdatabase : database_name \in pd_databases pd.

Lemma run_lca_checked (body : LCARequest F) :
  run_lca bw project_name database_name body =
  (set_current bw project_name,
   check_activities pd database_name (req_demands body) ;;;
   impact_categories <- lift (select_methods pd body) ;;
   inputs <- lift (new_LCAInput
                     [seq qualify database_name d | d <- req_demands body]
                     impact_categories) ;;
   staticLCA pd inputs).
Proof. by rewrite /run_lca Hproject Hdatabase. Qed.

(** X6. The first key of the request that is not an activity of the
    database decides the answer: a 404 that names this key, after the
    lookups of the keys before it and of the key itself, whatever the
    request says about methods. *)
Theorem run_lca_first_unknown_activity (body : LCARequest F)
    (ks1 ks2 : seq string) (k : string) :
  flatten [seq dict_keys d | d <- req_demands body] = ks1 ++ k :: ks2 ->
  all (fun k' => isSome (dict_get (pd_activities pd) (database_name, k'))) ks1 ->
  dict_get (pd_activities pd) (database_name, k) = None ->
  run_lca bw project_name database_name body =
  (set_current bw project_name,
   (lookups F database_name (rcons ks1 k),
    inl (HTTPException 404 (activity_not_found k)))).
Proof.
move=> Hks Hall Hk.
by rewrite run_lca_checked (check_activities_unknown Hks Hall Hk).
Qed.

Lemma bind_logged T U (log : seq (event F)) (x : T) (k : T -> M F U) :
  bind (log, inr x) k = (log ++ (k x).1, (k x).2).
Proof. by rewrite /bind; case: (k x). Qed.

Lemma run_lca_known (body : LCARequest F) :
  request_known pd database_name (req_demands body) ->
  run_lca bw project_name database_name body =
  (set_current bw project_name,
   let out := (impact_categories <- lift (select_methods pd body) ;;
               inputs <- lift (new_LCAInput
                          [seq qualify database_name d | d <- req_demands body]
                          impact_categories) ;;
               staticLCA pd inputs) in
   (lookups F database_name (flatten [seq dict_keys d | d <- req_demands body])
      ++ out.1, out.2)).
Proof.
by move=> Hk; rewrite run_lca_checked (check_activities_known Hk) bind_logged.
Qed.

(** X7. With every activity known and no usable [lcia_method], a list of
    categories one of which is not registered is refused with the 404
    "Impact category not found."; the activities were looked up, nothing was
    evaluated. *)
Theorem run_lca_unregistered_category (ds : seq (dict string F))
    (lcia : option string) (ls1 ls2 : seq (seq string)) (l : seq string) :
  request_known pd database_name ds ->
  nonempty_str lcia = None ->
  all (fun l' => l' \in dict_keys (pd_methods pd)) ls1 ->
  l \notin dict_keys (pd_methods pd) ->
  run_lca bw project_name database_name
    (MkLCARequest ds (Some (ls1 ++ l :: ls2)) lcia) =
  (set_current bw project_name,
   (lookups F database_name (flatten [seq dict_keys d | d <- ds]),
    inl (HTTPException 404 "Impact category not found."))).
Proof.
move=> Hk Hlcia Hall Hl; rewrite run_lca_known //.
have Hloop : forall acc,
    rfold (fun acc method_list =>
             if method_list \in dict_keys (pd_methods pd)
             then inr (rcons acc (tuple_of method_list))
             else inl (HTTPException 404 "Impact category not found."))
          acc (ls1 ++ l :: ls2) =
    inl (HTTPException 404 "Impact category not found.").
  elim: ls1 Hall => [|l1 ls1 IH] /= => [_ acc|/andP [-> Hall] acc].
    by rewrite (negbTE Hl).
  exact: IH.
have -> : select_methods pd (MkLCARequest ds (Some (ls1 ++ l :: ls2)) lcia) =
          inl (HTTPException 404 "Impact category not found.").
  rewrite /select_methods [req_lcia_method _]/= Hlcia.
  have -> : nonempty_list (req_impact_categories
              (MkLCARequest ds (Some (ls1 ++ l :: ls2)) lcia)) =
            Some (ls1 ++ l :: ls2).
    by case: (ls1) => [|? ?].
  exact: Hloop.
by rewrite /= cats0.
Qed.

(** X9. With every activity known, a non-empty [lcia_method] that is the
    first part of no registered key makes the selection empty, and the
    request ends in the [ValueError] of [staticLCA] after the lookups of the
    activities. *)
Theorem run_lca_unmatched_family (ds : seq (dict string F))
    (ic : option (seq (seq string))) (name : string) :
  request_known pd database_name ds ->
  name != EmptyString ->
  [::] \notin dict_keys (pd_methods pd) ->
  family_of pd name = [::] ->
  run_lca bw project_name database_name (MkLCARequest ds ic (Some name)) =
  (set_current bw project_name,
   (lookups F database_name (flatten [seq dict_keys d | d <- ds]),
    inl (ValueError no_methods_msg))).
Proof.
move=> Hk /negbTE Hname /negbTE Hnil Hfam; rewrite run_lca_known //=.
rewrite /select_methods /= Hname Hnil.
have -> : [seq tuple_of method
          | method <- dict_keys (pd_methods pd)
          & head EmptyString method == name] = [::].
  by move: Hfam; rewrite /family_of => ->.
by rewrite /= cats0.
Qed.

(** X10. With every activity known, a non-empty [lcia_method] whose family
    holds a key that does not have exactly three parts is never evaluated,
    not even for the keys of the family that have three parts: after the
    lookups of the activities the request ends in the [ValidationError] of
    [LCAInput], or, when the registry holds the empty key, in the
    [IndexError] of the selection. *)
Theorem run_lca_short_key (ds : seq (dict string F))
    (ic : option (seq (seq string))) (name : string) :
  request_known pd database_name ds ->
  name != EmptyString ->
  has (fun m => size m != 3) (family_of pd name) ->
  run_lca bw project_name database_name (MkLCARequest ds ic (Some name)) =
  (set_current bw project_name,
   (lookups F database_name (flatten [seq dict_keys d | d <- ds]),
    inl (if [::] \in dict_keys (pd_methods pd) then IndexError
         else ValidationError))).
Proof.
move=> Hk /negbTE Hname Hhas; rewrite run_lca_known //=.
rewrite /select_methods /= Hname.
case: ifP => _ /=; first by rewrite cats0.
rewrite (new_LCAInputE [seq qualify database_name d | d <- ds]
                       [seq tuple_of method | method <- family_of pd name]).
have -> : all three_strings [seq tuple_of m | m <- family_of pd name] = false.
  apply/negbTE; rewrite -has_predC has_map.
  apply: sub_has Hhas => m /=.
  have -> : strings_of [seq AStr s | s <- m] = Some m.
    by elim: m => [|s m /= ->].
  by case: m => [|a [|b [|c [|e m]]]].
by rewrite /= cats0.
Qed.

(** X12. With every activity known, a request without a usable
    [lcia_method] and without categories is refused with the 400, after the
    lookups of the activities. *)
Theorem run_lca_nothing_selected (ds : seq (dict string F))
    (ic : option (seq (seq string))) (lcia : option string) :
  request_known pd database_name ds ->
  nonempty_str lcia = None ->
  nonempty_list ic = None ->
  run_lca bw project_name database_name (MkLCARequest ds ic lcia) =
  (set_current bw project_name,
   (lookups F database_name (flatten [seq dict_keys d | d <- ds]),
    inl (HTTPException 400
           "No impact categories provided or lcia method provided."))).
Proof.
move=> Hk Hlcia Hic; rewrite run_lca_known //=.
by rewrite /select_methods /= Hlcia Hic /= cats0.
Qed.

End Refusals.

Lemma run_lca_first_unknown_activity_witness :
  [/\ flatten [seq dict_keys d | d <- [:: [:: ("P1"%string, 1)]; [:: ("P9"%string, 1 : rat)]]]
         = [:: "P1"%string] ++ "P9"%string :: [::],
       all (fun k' => isSome (dict_get (pd_activities toy) ("db"%string, k')))
           [:: "P1"%string]
     & dict_get (pd_activities toy) ("db", "P9")%string = None]
  /\ run_lca toy_bw "demo" "db"
       (MkLCARequest [:: [:: ("P1"%string, 1)]; [:: ("P9"%string, 1)]] None None) =
     (set_current toy_bw "demo",
      (lookups rat "db" (rcons [:: "P1"%string] "P9"%string),
       inl (HTTPException 404 (activity_not_found "P9")))).
Proof.
split; first by [].
exact: (@run_lca_first_unknown_activity rat toy_bw toy "demo" "db"
          (erefl _) (erefl _)
          (MkLCARequest [:: [:: ("P1"%string, 1)]; [:: ("P9"%string, 1)]] None None)
          [:: "P1"%string] [::] "P9"%string (erefl _) (erefl _) (erefl _)).
Defined.

Lemma run_lca_unregistered_category_witness :
  [/\ request_known toy "db" [:: [:: ("P1"%string, 1)]],
       nonempty_str None = None,
       all (fun l' => l' \in dict_keys (pd_methods toy)) [:: gwp]
     & [:: "no"; "such"; "method"]%string \notin dict_keys (pd_methods toy)]
  /\ run_lca toy_bw "demo" "db"
       (MkLCARequest [:: [:: ("P1"%string, 1)]]
          (Some ([:: gwp] ++ [:: "no"; "such"; "method"]%string :: [:: unit_E]))
          None) =
     (set_current toy_bw "demo",
      (lookups rat "db" (flatten [seq dict_keys d | d <- [:: [:: ("P1"%string, 1 : rat)]]]),
       inl (HTTPException 404 "Impact category not found."))).
Proof.
split; first by [].
exact: (@run_lca_unregistered_category rat toy_bw toy "demo" "db"
          (erefl _) (erefl _) [:: [:: ("P1"%string, 1)]] None
          [:: gwp] [:: unit_E] [:: "no"; "such"; "method"]%string
          (erefl _) (erefl _) (erefl _) (erefl _)).
Defined.

Lemma run_lca_unmatched_family_witness :
  [/\ request_known toy "db" [:: [:: ("P1"%string, 1)]],
       "ReCiPe"%string != EmptyString,
       [::] \notin dict_keys (pd_methods toy)
     & family_of toy "ReCiPe" = [::]]
  /\ run_lca toy_bw "demo" "db"
       (MkLCARequest [:: [:: ("P1"%string, 1)]] None (Some "ReCiPe"%string)) =
     (set_current toy_bw "demo",
      (lookups rat "db" (flatten [seq dict_keys d | d <- [:: [:: ("P1"%string, 1 : rat)]]]),
       inl (ValueError no_methods_msg))).
Proof.
split; first by [].
exact: (@run_lca_unmatched_family rat toy_bw toy "demo" "db"
          (erefl _) (erefl _) [:: [:: ("P1"%string, 1)]] None "ReCiPe"%string
          (erefl _) (erefl _) (erefl _) (erefl _)).
Defined.

Lemma run_lca_short_key_witness :
  [/\ request_known toy_short "db" [:: [:: ("P1"%string, 1)]],
       "CML"%string != EmptyString
     & has (fun m => size m != 3) (family_of toy_short "CML")]
  /\ run_lca toy_short_bw "demo" "db"
       (MkLCARequest [:: [:: ("P1"%string, 1)]] None (Some "CML"%string)) =
     (set_current toy_short_bw "demo",
      (lookups rat "db" (flatten [seq dict_keys d | d <- [:: [:: ("P1"%string, 1 : rat)]]]),
       inl (if [::] \in dict_keys (pd_methods toy_short) then IndexError
            else ValidationError))).
Proof.
split; first by [].
exact: (@run_lca_short_key rat toy_short_bw toy_short "demo" "db"
          (erefl _) (erefl _) [:: [:: ("P1"%string, 1)]] None "CML"%string
          (erefl _) (erefl _) (erefl _)).
Defined.

Lemma run_lca_nothing_selected_witness :
  [/\ request_known toy "db" [:: [:: ("P1"%string, 1)]],
       nonempty_str (Some EmptyString) = None
     & nonempty_list (Some [::]) = None :> option (seq (seq string))]
  /\ run_lca toy_bw "demo" "db"
       (MkLCARequest [:: [:: ("P1"%string, 1)]] (Some [::]) (Some EmptyString)) =
     (set_current toy_bw "demo",
      (lookups rat "db" (flatten [seq dict_keys d | d <- [:: [:: ("P1"%string, 1 : rat)]]]),
       inl (HTTPException 400
              "No impact categories provided or lcia method provided."))).
Proof.
split; first by [].
exact: (@run_lca_nothing_selected rat toy_bw toy "demo" "db"
          (erefl _) (erefl _) [:: [:: ("P1"%string, 1)]] (Some [::])
          (Some EmptyString) (erefl _) (erefl _) (erefl _)).
Defined.

(** ** [run_lca]: what is evaluated *)

Section Evaluated.

Variable F : fieldType.
Variable bw : bw2data F.
Variable pd : project F.
Variables project_name database_name : string.

Hypothesis Hproject : dict_get (bw_projects bw) project_name = Some pd.
Hypothesis Hdatabase : database_name \in pd_databases pd.

Lemma bind_lift_inr T U (x : T) (k : T -> M F U) :
  bind (lift (inr x)) k = k x.
Proof. by rewrite /bind /lift /=; case: (k x). Qed.

Lemma strings_of_tuple (m : seq string) : strings_of [seq AStr s | s <- m] = Some m.
Proof. by elim: m => [|s m /= ->]. Qed.

Lemma three_strings_tuple_of (m : seq string) :
  three_strings (tuple_of m) = (size m == 3).
Proof.
rewrite /three_strings /tuple_of strings_of_tuple.
by case: m => [|a [|b [|c [|e m]]]].
Qed.

Lemma categories_loop (acc : seq pyobj) (ls : seq (seq string)) :
  all (fun m => m \in dict_keys (pd_methods pd)) ls ->
  rfold (fun acc method_list =>
           if method_list \in dict_keys (pd_methods pd)
           then inr (rcons acc (tuple_of method_list))
           else inl (HTTPException 404 "Impact category not found."))
        acc ls = inr (acc ++ [seq tuple_of m | m <- ls]).
Proof.
elim: ls acc => [|m ms IH] acc /=; first by rewrite cats0.
by case/andP=> Hm /IH Hms; rewrite Hm /= Hms cat_rcons.
Qed.

Lemma run_lca_selected (body : LCARequest F) (keys : seq (seq string)) :
  request_known pd database_name (req_demands body) ->
  select_methods pd body = inr [seq tuple_of m | m <- keys] ->
  all (fun m => size m == 3) keys ->
  run_lca bw project_name database_name body =
  (set_current bw project_name,
   (lookups F database_name (flatten [seq dict_keys d | d <- req_demands body])
      ++ (staticLCA pd
            (MkLCAInput [seq qualify database_name d | d <- req_demands body]
                        [seq tuple_of m | m <- keys])).1,
    (staticLCA pd
       (MkLCAInput [seq qualify database_name d | d <- req_demands body]
                   [seq tuple_of m | m <- keys])).2)).
Proof.
move=> Hk Hsel H3; rewrite (run_lca_known Hproject Hdatabase Hk) Hsel.
rewrite bind_lift_inr.
rewrite (new_LCAInputE [seq qualify database_name d | d <- req_demands body]
                       [seq tuple_of m | m <- keys]).
have -> : all three_strings [seq tuple_of m | m <- keys].
  rewrite all_map; apply: sub_all H3 => m Hm.
  by rewrite -[preim _ _ _]/(three_strings (tuple_of m)) three_strings_tuple_of.
have -> : [seq as_tuple o | o <- [seq tuple_of m | m <- keys]] =
          [seq tuple_of m | m <- keys].
  by rewrite -map_comp.
by rewrite bind_lift_inr.
Qed.

(** X8. With every activity known and no usable [lcia_method], a non-empty
    list of categories that are all registered and all have three parts is
    evaluated as it stands: after the lookups of the activities the request
    is the run of [staticLCA] on the demands, each key paired with the
    database, and on the categories as tuples, in the order given. *)
Theorem run_lca_evaluates_categories (ds : seq (dict string F))
    (lcia : option string) (l : seq string) (ls : seq (seq string)) :
  request_known pd database_name ds ->
  nonempty_str lcia = None ->
  all (fun m => (m \in dict_keys (pd_methods pd)) && (size m == 3)) (l :: ls) ->
  run_lca bw project_name database_name (MkLCARequest ds (Some (l :: ls)) lcia) =
  (set_current bw project_name,
   (lookups F database_name (flatten [seq dict_keys d | d <- ds])
      ++ (staticLCA pd (MkLCAInput [seq qualify database_name d | d <- ds]
                                   [seq tuple_of m | m <- l :: ls])).1,
    (staticLCA pd (MkLCAInput [seq qualify database_name d | d <- ds]
                              [seq tuple_of m | m <- l :: ls])).2)).
Proof.
move=> Hk Hlcia Hall.
apply: (@run_lca_selected (MkLCARequest ds (Some (l :: ls)) lcia) (l :: ls)) => //.
  rewrite /select_methods [req_lcia_method _]/= Hlcia.
  by apply: (categories_loop [::]); apply: sub_all Hall => m /andP [].
by apply: sub_all Hall => m /andP [].
Qed.

(** X11. With every activity known, a non-empty [lcia_method] whose family
    has keys of three parts only is evaluated on the whole family, in the
    order of the registry. *)
Theorem run_lca_evaluates_family (ds : seq (dict string F))
    (ic : option (seq (seq string))) (name : string) :
  request_known pd database_name ds ->
  name != EmptyString ->
  [::] \notin dict_keys (pd_methods pd) ->
  all (fun m => size m == 3) (family_of pd name) ->
  run_lca bw project_name database_name (MkLCARequest ds ic (Some name)) =
  (set_current bw project_name,
   (lookups F database_name (flatten [seq dict_keys d | d <- ds])
      ++ (staticLCA pd (MkLCAInput [seq qualify database_name d | d <- ds]
                                   [seq tuple_of m | m <- family_of pd name])).1,
    (staticLCA pd (MkLCAInput [seq qualify database_name d | d <- ds]
                              [seq tuple_of m | m <- family_of pd name])).2)).
Proof.
move=> Hk /negbTE Hname /negbTE Hnil H3.
apply: (@run_lca_selected (MkLCARequest ds ic (Some name)) (family_of pd name)) => //.
by rewrite /select_methods /= Hname Hnil.
Qed.

End Evaluated.

Lemma run_lca_evaluates_categories_witness :
  [/\ request_known toy "db" [:: [:: ("P1"%string, 1)]],
       nonempty_str None = None
     & all (fun m => (m \in dict_keys (pd_methods toy)) && (size m == 3))
           [:: unit_E; gwp]]
  /\ run_lca toy_bw "demo" "db"
       (MkLCARequest [:: [:: ("P1"%string, 1)]] (Some [:: unit_E; gwp]) None) =
     (set_current toy_bw "demo",
      (lookups rat "db" (flatten [seq dict_keys d | d <- [:: [:: ("P1"%string, 1 : rat)]]])
         ++ (staticLCA toy
               (MkLCAInput [seq qualify "db" d | d <- [:: [:: ("P1"%string, 1)]]]
                           [seq tuple_of m | m <- [:: unit_E; gwp]])).1,
       (staticLCA toy
          (MkLCAInput [seq qualify "db" d | d <- [:: [:: ("P1"%string, 1)]]]
                      [seq tuple_of m | m <- [:: unit_E; gwp]])).2)).
Proof.
split; first by [].
exact: (@run_lca_evaluates_categories rat toy_bw toy "demo" "db"
          (erefl _) (erefl _) [:: [:: ("P1"%string, 1)]] None unit_E [:: gwp]
          (erefl _) (erefl _) (erefl _)).
Defined.

Lemma run_lca_evaluates_family_witness :
  [/\ request_known toy "db" [:: [:: ("P1"%string, 1)]],
       "IPCC"%string != EmptyString,
       [::] \notin dict_keys (pd_methods toy)
     & all (fun m => size m == 3) (family_of toy "IPCC")]
  /\ run_lca toy_bw "demo" "db"
       (MkLCARequest [:: [:: ("P1"%string, 1)]] None (Some "IPCC"%string)) =
     (set_current toy_bw "demo",
      (lookups rat "db" (flatten [seq dict_keys d | d <- [:: [:: ("P1"%string, 1 : rat)]]])
         ++ (staticLCA toy
               (MkLCAInput [seq qualify "db" d | d <- [:: [:: ("P1"%string, 1)]]]
                           [seq tuple_of m | m <- family_of toy "IPCC"])).1,
       (staticLCA toy
          (MkLCAInput [seq qualify "db" d | d <- [:: [:: ("P1"%string, 1)]]]
                      [seq tuple_of m | m <- family_of toy "IPCC"])).2)).
Proof.
split; first by [].
exact: (@run_lca_evaluates_family rat toy_bw toy "demo" "db"
          (erefl _) (erefl _) [:: [:: ("P1"%string, 1)]] None "IPCC"%string
          (erefl _) (erefl _) (erefl _) (erefl _)).
Defined.

(** ** [run_lca]: the demands it hands on *)

Section Demands.

Variable F : fieldType.

Local Arguments bind : simpl never.

Lemma dict_of_items_uniq (K : eqType) V (acc items : seq (K * V)) :
  uniq ([seq kv.1 | kv <- acc] ++ [seq kv.1 | kv <- items]) ->
  foldl (fun d kv => dict_set d kv.1 kv.2) acc items = acc ++ items.
Proof.
elim: items acc => [|[k v] items IH] acc /=; first by rewrite !cats0.
move=> Hu.
have Hk : k \notin dict_keys acc.
  by move: Hu; rewrite cat_uniq /= negb_or => /and3P [_ /andP []].
rewrite dict_set_notin // IH -cats1 -?catA //.
by rewrite map_cat -catA.
Qed.

(** X22. A demand of the request whose keys are distinct, as the keys of a
    JSON object are, is handed on with the same amounts in the same order,
    each key paired with the name of the database. *)
Theorem qualify_keeps_items (database_name : string) (demand : dict string F) :
  uniq (dict_keys demand) ->
  qualify database_name demand =
  [seq ((database_name, kv.1), kv.2) | kv <- demand].
Proof.
move=> Hu; rewrite /qualify /dict_of_items dict_of_items_uniq //=.
have Hinj : injective (fun k : string => (database_name, k)) by move=> k k' [].
by rewrite -map_comp (map_comp (pair database_name) fst) (map_inj_uniq Hinj).
Qed.

(** X23. A request that holds an empty demand never gets a result: the
    evaluation has no first key to file the demand under. *)
Theorem run_lca_empty_demand (bw : bw2data F)
    (project_name database_name : string) (body : LCARequest F) :
  [::] \in req_demands body ->
  ~~ ok (run_lca bw project_name database_name body).2.2.
Proof.
move=> Hd; rewrite /run_lca.
case: dict_get => [pd|] //=; case: ifP => _ //=.
rewrite bind2; case: (check_activities _ _ _).2 => [e|_] //=.
rewrite bind2 /=; case: select_methods => [e|ms] //=.
rewrite bind2 /= new_LCAInputE; case: ifP => _ //=.
case Hr: (staticLCA pd _).2 => [e|r] //.
have /allP /(_ [::]) /= := staticLCA_labelled Hr.
rewrite /label_of /=; move=> H; have := H _.
by move=> /(_ (map_f (qualify database_name) Hd)).
Qed.

End Demands.

Lemma qualify_keeps_items_witness :
  uniq (dict_keys [:: ("P1"%string, 1 : rat); ("P2"%string, 3%:Q)])
  /\ qualify "db" [:: ("P1"%string, 1 : rat); ("P2"%string, 3%:Q)] =
     [seq (("db"%string, kv.1), kv.2)
     | kv <- [:: ("P1"%string, 1 : rat); ("P2"%string, 3%:Q)]].
Proof.
split; first by [].
exact: (@qualify_keeps_items rat "db"
          [:: ("P1"%string, 1); ("P2"%string, 3%:Q)] (erefl _)).
Defined.

Lemma run_lca_empty_demand_witness :
  [::] \in req_demands (MkLCARequest [:: [:: ("P1"%string, 1 : rat)]; [::]]
                                      None (Some "IPCC"%string))
  /\ ~~ ok (run_lca toy_bw "demo" "db"
              (MkLCARequest [:: [:: ("P1"%string, 1 : rat)]; [::]]
                            None (Some "IPCC"%string))).2.2.
Proof.
split; first by [].
exact: (@run_lca_empty_demand rat toy_bw "demo" "db"
          (MkLCARequest [:: [:: ("P1"%string, 1)]; [::]] None
                        (Some "IPCC"%string)) (erefl _)).
Defined.

(** ** The endpoints that read the registry *)

Section EndpointLemmas.

Variable F : fieldType.

Lemma ensure_currentE (bw : bw2data F) (project_name : string) :
  ensure_current bw project_name = set_current bw project_name.
Proof.
rewrite /ensure_current /set_current; case: bw => projects current /=.
by case: eqP => [->|].
Qed.

Lemma families_loop (keys : seq (seq string)) :
  rmapM method_family keys =
  if [::] \in keys then inl IndexError
  else inr [seq head EmptyString m | m <- keys].
Proof.
elim: keys => [|[|s m] keys IH] //=.
by rewrite IH inE /=; case: ifP.
Qed.

Lemma categories_of_loop (name : string) (acc : seq string)
    (keys : seq (seq string)) :
  rfold (category_step name) acc keys =
  if ([::] \in keys)
     || has (fun m => size m == 1%N)
            (filter (fun m => head EmptyString m == name) keys)
  then inl IndexError
  else inr (acc ++ [seq nth EmptyString m 1
                   | m <- filter (fun m => head EmptyString m == name) keys]).
Proof.
elim: keys acc => [|[|s [|c m]] keys IH] acc //=; first by rewrite cats0.
- rewrite /category_step /= eq_sym; case: ifP => _ /=; first by rewrite orbT.
  by rewrite IH inE.
- rewrite /category_step /= eq_sym; case: ifP => _ /=; rewrite IH inE //=.
  by case: ifP => _ //; rewrite cat_rcons.
Qed.

End EndpointLemmas.

Section EndpointTheorems.

Variable F : fieldType.
Variable bw : bw2data F.
Variable pd : project F.
Variable project_name : string.

(** X13. For a project of the store, [get_impact_categories] answers: an
    [IndexError] when the registry holds the empty key or the family holds
    a key of one part; else the 404 "LCIA method not found." when the family
    is empty; else the second parts of the keys of the family, in the order
    of the registry and with their repetitions. *)
Theorem get_impact_categories_family (lcia_method : string) :
  dict_get (bw_projects bw) project_name = Some pd ->
  (get_impact_categories bw project_name lcia_method).2 =
  if ([::] \in dict_keys (pd_methods pd))
     || has (fun m => size m == 1%N) (family_of pd lcia_method)
  then inl IndexError
  else if family_of pd lcia_method is [::]
       then inl (HTTPException 404 "LCIA method not found.")
       else inr [seq nth EmptyString m 1 | m <- family_of pd lcia_method].
Proof.
move=> Hp; rewrite /get_impact_categories Hp /= categories_of_loop /family_of.
case: ifP => _ //=.
by case: (filter _ _).
Qed.

(** X14. For a project of the store whose registry does not hold the empty
    key, [get_lcia_methods] lists every family once, and a name is listed
    exactly when some registered key starts with it. *)
Theorem get_lcia_methods_families :
  dict_get (bw_projects bw) project_name = Some pd ->
  [::] \notin dict_keys (pd_methods pd) ->
  exists2 methods,
    (get_lcia_methods bw project_name).2 = inr methods
    & uniq methods
      /\ forall name, (name \in methods) = (family_of pd name != [::]).
Proof.
move=> Hp /negbTE Hnil.
exists (undup [seq head EmptyString m | m <- dict_keys (pd_methods pd)]).
  by rewrite /get_lcia_methods Hp /= families_loop Hnil.
split; first exact: undup_uniq.
move=> name; rewrite mem_undup /family_of -has_filter.
apply/mapP/hasP => [[m Hm ->]|[m Hm /eqP <-]]; first by exists m.
by exists m.
Qed.

(** X15. The two endpoints agree: when [get_lcia_methods] answers with a
    list, the names it does not list are the ones [get_impact_categories]
    answers with the 404 "LCIA method not found."; a listed name gets its
    categories, as many as the family has keys, or an [IndexError]. *)
Theorem listed_methods_have_categories (methods : seq string) (name : string) :
  dict_get (bw_projects bw) project_name = Some pd ->
  (get_lcia_methods bw project_name).2 = inr methods ->
  if name \in methods then
    (get_impact_categories bw project_name name).2 = inl IndexError
    \/ exists2 categories,
         (get_impact_categories bw project_name name).2 = inr categories
         & size categories = size (family_of pd name)
           /\ (0 < size categories)%N
  else (get_impact_categories bw project_name name).2 =
       inl (HTTPException 404 "LCIA method not found.").
Proof.
move=> Hp; rewrite /get_impact_categories Hp /= categories_of_loop.
rewrite -/(family_of pd name).
rewrite /get_lcia_methods Hp /= families_loop.
case: ifP => //= Hnil [<-].
rewrite mem_undup.
have -> : (name \in [seq head EmptyString m | m <- dict_keys (pd_methods pd)])
          = (family_of pd name != [::]).
  rewrite /family_of -has_filter.
  apply/mapP/hasP => [[m Hm ->]|[m Hm /eqP <-]]; first by exists m.
  by exists m.
case Hfam: (family_of pd name) => [|m ms] //=.
case: ifP => _; first by left.
by right; eexists; first by []; rewrite /= size_map.
Qed.

End EndpointTheorems.

Section EndpointStore.

Variable F : fieldType.

(** X16. The four endpoints treat the project alike.  A name that is not
    a project of the store is answered with the 404 "Project not found."
    and leaves the store as it was; for a project of the store each of them
    leaves it as the current one, the guarded [set_current] of the three
    reading endpoints amounting to the unguarded one of [run_lca], and the
    projects themselves are never changed. *)
Theorem endpoints_project_first (bw : bw2data F)
    (project_name database_name lcia_method : string) (body : LCARequest F) :
  let after := (run_lca bw project_name database_name body).1 in
  [/\ (list_project_databases bw project_name).1 = after,
      (get_lcia_methods bw project_name).1 = after,
      (get_impact_categories bw project_name lcia_method).1 = after,
      bw_projects after = bw_projects bw
    & if dict_get (bw_projects bw) project_name is Some pd
      then bw_current after = project_name
           /\ (list_project_databases bw project_name).2 = inr (pd_databases pd)
      else [/\ after = bw,
               (list_project_databases bw project_name).2 =
                 inl (HTTPException 404 "Project not found."),
               (get_lcia_methods bw project_name).2 =
                 inl (HTTPException 404 "Project not found."),
               (get_impact_categories bw project_name lcia_method).2 =
                 inl (HTTPException 404 "Project not found.")
             & (run_lca bw project_name database_name body).2 =
                 ([::], inl (HTTPException 404 "Project not found."))]].
Proof.
rewrite /list_project_databases /get_lcia_methods /get_impact_categories
        /run_lca.
by case: dict_get => [pd|] /=; rewrite ?ensure_currentE.
Qed.

End EndpointStore.

Lemma get_impact_categories_family_witness :
  dict_get (bw_projects toy_bw) "demo"%string = Some toy
  /\ (get_impact_categories toy_bw "demo" "IPCC").2 =
     inr [:: "climate change"; "emission"]%string.
Proof.
split; first by [].
exact: (@get_impact_categories_family rat toy_bw toy "demo" "IPCC" (erefl _)).
Defined.

Lemma get_lcia_methods_families_witness :
  [/\ dict_get (bw_projects toy_short_bw) "demo"%string = Some toy_short
    & [::] \notin dict_keys (pd_methods toy_short)]
  /\ exists2 methods,
       (get_lcia_methods toy_short_bw "demo").2 = inr methods
       & uniq methods
         /\ forall name, (name \in methods) = (family_of toy_short name != [::]).
Proof.
split; first by [].
exact: (@get_lcia_methods_families rat toy_short_bw toy_short "demo"
          (erefl _) (erefl _)).
Defined.

Lemma listed_methods_have_categories_witness :
  [/\ dict_get (bw_projects toy_bw) "demo"%string = Some toy
    & (get_lcia_methods toy_bw "demo").2 = inr [:: "IPCC"%string]]
  /\ ((get_impact_categories toy_bw "demo" "IPCC").2 = inl IndexError
      \/ exists2 categories,
           (get_impact_categories toy_bw "demo" "IPCC").2 = inr categories
           & size categories = size (family_of toy "IPCC")
             /\ (0 < size categories)%N).
Proof.
split; first by [].
exact: (@listed_methods_have_categories rat toy_bw toy "demo"
          [:: "IPCC"%string] "IPCC" (erefl _) (erefl _)).
Defined.

(** ** [convert_results_format]: errors, scores and separators *)

Section FormattingErrors.

Variables (V W : Type).

Lemma join_type_error (o : pyobj) (e : exn) : join o = inl e -> e = TypeError.
Proof.
by case: o => [[s|z]|xs|xs] /=; try case: (strings_of xs) => [ss|]; case.
Qed.

Lemma convert_inner_dict_type_error (acc : dict string V) (inner : dict pyobj V) :
  if all (fun tv => ok (join tv.1)) inner
  then is_true (ok (rfold (fun acc kv =>
                    rbind (join kv.1) (fun s => inr (dict_set acc s kv.2)))
                 acc inner))
  else rfold (fun acc kv =>
                rbind (join kv.1) (fun s => inr (dict_set acc s kv.2)))
             acc inner = inl TypeError.
Proof.
elim: inner acc => [|[k v] inner IH] acc //=.
case Hk: (join k) => [e|s] /=; first by rewrite (join_type_error Hk).
exact: IH.
Qed.

(** X17. The formatting returns exactly when every method key of every
    entry can be joined, that is, is a string or a list or tuple of strings;
    otherwise it ends in a [TypeError], whatever the scores are. *)
Theorem convert_results_format_type_error (results : dict string (dict pyobj V)) :
  if all (fun kv => all (fun tv => ok (join tv.1)) kv.2) results
  then is_true (ok (convert_results_format results))
  else convert_results_format results = inl TypeError.
Proof.
rewrite /convert_results_format.
elim: results [::] => [|[o inner] results IH] acc //=.
have := convert_inner_dict_type_error [::] inner.
rewrite -/(convert_inner_dict inner).
case: (all _ inner) => /=; last by move=> ->.
case: (convert_inner_dict inner) => [e|c] //= _.
exact: IH.
Qed.

(** X18. The formatting never looks at the scores: changing every score by
    a function commutes with it, errors included. *)
Theorem convert_results_format_natural (f : V -> W)
    (results : dict string (dict pyobj V)) :
  convert_results_format (map_values (map_values f) results) =
  rmap (map_values (map_values f)) (convert_results_format results).
Proof.
rewrite /convert_results_format
  -[[::] in LHS]/(map_values (map_values f) [::]).
elim: results [::] => [|[o inner] results IH] acc //=.
rewrite convert_inner_dict_map.
case: (convert_inner_dict inner) => [e|c] //=.
by rewrite dict_set_map_values IH.
Qed.

End FormattingErrors.

Section Separator.

Variable V : Type.

Lemma append_bar_inj (a a' r r' : string) :
  has_bar a = false -> has_bar a' = false ->
  (a ++ " | " ++ r)%string = (a' ++ " | " ++ r')%string ->
  a = a' /\ r = r'.
Proof.
elim: a a' => [|c a IH] [|c' a'] /=.
- by move=> _ _ [->].
- move=> _ /norP [_ Ha'] [_]; case: a' Ha' => [|c2 a''] //=.
  by move=> /negbTE /norP [Hc2 _] [E]; move: Hc2; rewrite -E.
- move=> /norP [_ Ha] _ [_]; case: a Ha {IH} => [|c2 a''] //=.
  by move=> /norP [Hc2 _] [E]; move: Hc2; rewrite E.
- move=> /norP [_ /negbTE Ha] /norP [_ /negbTE Ha'] [-> /(IH _ Ha Ha')].
  by case=> -> ->.
Qed.

Lemma join3_without_bar_inj (t t' : key3) :
  ~~ (has_bar t.1.1 || has_bar t.1.2) ->
  ~~ (has_bar t'.1.1 || has_bar t'.1.2) ->
  join3 t = join3 t' -> t = t'.
Proof.
case: t t' => [[a b] c] [[a' b'] c'] /= /norP [/negbTE Ha /negbTE Hb].
move=> /norP [/negbTE Ha' /negbTE Hb']; rewrite /join3 /=.
by move=> /(append_bar_inj Ha Ha') [-> /(append_bar_inj Hb Hb') [-> ->]].
Qed.

(** X19. Two different 3-part keys whose first and second parts do not
    contain the character of the separator are never joined to the same
    string. *)
Theorem join_injective_without_bar (t t' : key3) :
  ~~ (has_bar t.1.1 || has_bar t.1.2) ->
  ~~ (has_bar t'.1.1 || has_bar t'.1.2) ->
  t != t' -> join (tuple3 t) <> join (tuple3 t').
Proof.
move=> Ht Ht' /eqP Hne; rewrite !join_tuple3 => -[E].
exact/Hne/join3_without_bar_inj.
Qed.

(** X20. A result with distinct outer keys whose 3-part method keys are
    distinct within each entry and hold the character of the separator at
    most in their last part is formatted faithfully: every score is found
    under the joined name of its key. *)
Theorem formatting_faithful_without_bar (results : dict string (dict key3 V)) :
  uniq (dict_keys results) ->
  all (fun kv => uniq (dict_keys kv.2)
                 && all (fun t => ~~ (has_bar t.1.1 || has_bar t.1.2))
                        (dict_keys kv.2)) results ->
  formats_every_key results.
Proof.
move=> Hu Hall; apply: formats_every_key_uniq => //.
apply: sub_all Hall => -[o inner] /= /andP [Hk /allP Hbar].
rewrite map_inj_in_uniq // => t t' /Hbar Ht /Hbar Ht' E.
exact: join3_without_bar_inj.
Qed.

End Separator.

Lemma join_injective_without_bar_witness :
  [/\ ~~ (has_bar ("a", "b", "c | d")%string.1.1
          || has_bar ("a", "b", "c | d")%string.1.2),
      ~~ (has_bar ("a", "b c", "d")%string.1.1
          || has_bar ("a", "b c", "d")%string.1.2)
    & ("a", "b", "c | d")%string != ("a", "b c", "d")%string :> key3]
  /\ join (tuple3 ("a", "b", "c | d")%string)
     <> join (tuple3 ("a", "b c", "d")%string).
Proof.
split; first by [].
exact: (@join_injective_without_bar ("a", "b", "c | d")%string
          ("a", "b c", "d")%string (erefl _) (erefl _) (erefl _)).
Defined.

Lemma formatting_faithful_without_bar_witness :
  [/\ uniq (dict_keys well_keyed)
    & all (fun kv => uniq (dict_keys kv.2)
                     && all (fun t => ~~ (has_bar t.1.1 || has_bar t.1.2))
                            (dict_keys kv.2)) well_keyed]
  /\ formats_every_key well_keyed.
Proof.
split; first by [].
exact: (@formatting_faithful_without_bar nat well_keyed (erefl _) (erefl _)).
Defined.

(** * The claims on the path of a request *)

(** ** A request that names no methods *)

Section NoMethods.

Variable F : fieldType.

Local Arguments bind : simpl never.


End NoMethods.



(** ** A list of methods with a malformed element *)

Section Malformed.

Variable F : fieldType.

Local Arguments bind : simpl never.


End Malformed.


(** ** A request with a method family and with categories *)

Section MethodFirst.

Variable F : fieldType.

Local Arguments bind : simpl never.

Lemma characterized_cat (log1 log2 : seq (event F)) :
  characterized (log1 ++ log2) = characterized log1 ++ characterized log2.
Proof. by rewrite /characterized map_cat flatten_cat. Qed.

Lemma characterized_db_get (log : seq (event F)) :
  all (@is_db_get F) log -> characterized log = [::].
Proof. by elim: log => [|[] *] //=; rewrite /characterized /=; auto. Qed.

Lemma characterized_switch (ms : seq pyobj) :
  characterized [seq @EvSwitchMethod F m | m <- ms] = [::].
Proof. by elim: ms. Qed.

Lemma characterized_scores (ms : seq pyobj) :
  characterized
    (flatten [seq [:: @EvSwitchMethod F m; EvCharacterize m] | m <- ms]) = ms.
Proof. by elim: ms => [|m ms IH] //=; rewrite /characterized /= -/(characterized _) IH. Qed.

Lemma characterized_demand_log (pd : project F) (ms : seq pyobj)
    (d : dict Key F) :
  label_of pd d -> characterized (demand_log pd ms d) = ms.
Proof.
rewrite /label_of /first_activity /demand_log.
case: (dict_keys d) => [|k ks] //; case: dict_get => [act|] // _.
by rewrite /characterized /= -/(characterized _) characterized_scores.
Qed.

Lemma characterized_demands (pd : project F) (ms : seq pyobj)
    (ds : seq (dict Key F)) :
  all (fun d => label_of pd d : bool) ds ->
  characterized (flatten [seq demand_log pd ms d | d <- ds]) =
  flatten (nseq (size ds) ms).
Proof.
elim: ds => [|d ds IH] //= /andP [Hd /IH Hds].
by rewrite characterized_cat characterized_demand_log // Hds.
Qed.

(** C10. A request with a non-empty [lcia_method], on a project and a
    database of the store: after the lookups of the activities [run_lca]
    hands to [staticLCA], through the constructor of [LCAInput], exactly the
    registered keys whose first part is that name, in the order of the
    registry (the selection ends in an [IndexError] when the registry holds
    the empty key).  Nothing in this depends on [impact_categories]: the
    run is the one of the request without them, so none of them is looked up
    in the registry.  When the request returns, the scores that were
    computed are those of the keys of the family, once for each demand. *)
Theorem run_lca_lcia_method_first (bw : bw2data F) (pd : project F)
    (project_name database_name : string) (ds : seq (dict string F))
    (ic : option (seq (seq string))) (name : string) :
  dict_get (bw_projects bw) project_name = Some pd ->
  database_name \in pd_databases pd ->
  name != EmptyString ->
  [/\ run_lca bw project_name database_name (MkLCARequest ds ic (Some name)) =
      (set_current bw project_name,
       check_activities pd database_name ds ;;;
       if [::] \in dict_keys (pd_methods pd) then raise IndexError
       else inputs <- lift (new_LCAInput
                              [seq qualify database_name d | d <- ds]
                              [seq tuple_of m | m <- family_of pd name]) ;;
            staticLCA pd inputs),
      run_lca bw project_name database_name (MkLCARequest ds ic (Some name)) =
      run_lca bw project_name database_name (MkLCARequest ds None (Some name))
    & forall r,
        (run_lca bw project_name database_name
           (MkLCARequest ds ic (Some name))).2.2 = inr r ->
        characterized
          (run_lca bw project_name database_name
             (MkLCARequest ds ic (Some name))).2.1 =
        flatten (nseq (size ds) [seq tuple_of m | m <- family_of pd name])].
Proof.
move=> Hp Hd /negbTE Hname.
have E : run_lca bw project_name database_name (MkLCARequest ds ic (Some name)) =
    (set_current bw project_name,
     check_activities pd database_name ds ;;;
     if [::] \in dict_keys (pd_methods pd) then raise IndexError
     else inputs <- lift (new_LCAInput
                            [seq qualify database_name d | d <- ds]
                            [seq tuple_of m | m <- family_of pd name]) ;;
          staticLCA pd inputs).
  rewrite (run_lca_checked Hp Hd) /select_methods /= Hname /family_of.
  by case: ifP => _ //; rewrite bind_lift_inr.
split=> //; first by rewrite /run_lca /select_methods /= Hname.
move=> r; rewrite E /= bind1 bind2.
have [Hlog _] := check_activities_shape pd database_name ds.
case: check_activities Hlog => log [e|[]] //= Hlog.
case: ifP => // _; rewrite bind1 bind2 /= new_LCAInputE.
case: ifP => //= H3.
have -> : [seq as_tuple o | o <- [seq tuple_of m | m <- family_of pd name]] =
          [seq tuple_of m | m <- family_of pd name].
  by rewrite -map_comp.
move=> Hr; rewrite characterized_cat (characterized_db_get Hlog) /=.
have /= := staticLCA_labelled Hr; rewrite (staticLCA_logE Hr) /staticLCA_log /=.
rewrite /characterized /= -/(characterized _) characterized_cat.
by rewrite characterized_switch /= => /characterized_demands ->; rewrite size_map.
Qed.

End MethodFirst.

Lemma run_lca_lcia_method_first_witness :
  [/\ dict_get (bw_projects toy_bw) "demo"%string = Some toy,
      "db"%string \in pd_databases toy
    & "IPCC"%string != EmptyString]
  /\ [/\ run_lca toy_bw "demo" "db" req_both =
         (set_current toy_bw "demo",
          check_activities toy "db" (req_demands req_both) ;;;
          if [::] \in dict_keys (pd_methods toy) then raise IndexError
          else inputs <- lift (new_LCAInput
                                 [seq qualify "db" d | d <- req_demands req_both]
                                 [seq tuple_of m | m <- family_of toy "IPCC"]) ;;
               staticLCA toy inputs),
         run_lca toy_bw "demo" "db" req_both =
         run_lca toy_bw "demo" "db"
           (MkLCARequest (req_demands req_both) None (Some "IPCC"%string))
       & forall r,
           (run_lca toy_bw "demo" "db" req_both).2.2 = inr r ->
           characterized (run_lca toy_bw "demo" "db" req_both).2.1 =
           flatten (nseq (size (req_demands req_both))
                         [seq tuple_of m | m <- family_of toy "IPCC"])].
Proof.
split; first by [].
exact: (@run_lca_lcia_method_first rat toy_bw toy "demo" "db"
          (req_demands req_both) (req_impact_categories req_both) "IPCC"
          (erefl _) (erefl _) (erefl _)).
Defined.
